(** * Multi-destination stream orchestration: a shallow embedding

    The development embeds two parts of the repository:

    - [Relay]: the relay controller of [relay_controller.ts] (destination
      registry, start/stop fan-out, per-platform status, start-up recovery),
      written over a small state-and-exception monad whose state holds the
      module-level variables of the source together with the outside world
      (generic key/value store, platform clients, wall clock);
    - [StateManager]: the account part of [state_manager.ts] (durable
      key/value store behind a TTL read cache).

    [Scenario] builds concrete worlds by running the exported operations;
    [RelayFacts] and [StateManagerFacts] hold the properties.

    Three further parts follow the same pattern: [Events], the
    scheduled-event methods of [state_manager.ts]; [LinkedIn], the URN
    classes and the client of [linkedin_api.ts] and
    [linkedin_api_client.ts]; [Standalone], the removal and stopping paths
    of [relay_controller_standalone.ts].  [Startup] follows [initialize]
    from one [await] to the next, for the calls made while it is pending.
    Their properties, and further properties of the first two parts, are
    in [RelayLifecycle], [AccountStoreFacts], [EventFacts], [LinkedInFacts]
    and [StandaloneFacts].

    An [await]ed promise that rejects is a thrown exception at the [await];
    [console] output is not modelled. *)

From stdpp Require Import base list strings gmap sorting.
From Stdlib Require Import ZArith Lia.

Open Scope Z_scope.

(** ** JavaScript values shared by both parts *)

(** A thrown value: an [Error] object carrying a message, or any other
    value, kept through its [String(...)] rendering. *)
Inductive Thrown : Type :=
  | JsError (message : string)
  | JsValue (rendered : string).

(** [error instanceof Error ? error.message : String(error)] *)
Definition errorMessage (e : Thrown) : string :=
  match e with
  | JsError m => m
  | JsValue s => s
  end.

(** Settlement of a promise. *)
Inductive Outcome (A : Type) : Type :=
  | Resolved (a : A)
  | Rejected (e : Thrown).
Arguments Resolved {A} a.
Arguments Rejected {A} e.

(** Truthiness of a string and of an optional string property. *)
Definition truthy (s : string) : bool := negb (String.eqb s "").

Definition truthyOpt (o : option string) : bool :=
  match o with
  | Some s => truthy s
  | None => false
  end.

(** The double-quote character used in the store's error messages. *)
Definition dquote : string := String (Ascii.ascii_of_nat 34) "".

(** ** The monad of asynchronous functions

    An asynchronous function over a state [S] takes the state it starts in
    and gives the settlement of its promise with the state it leaves. *)

Definition Async (S A : Type) : Type := S -> Outcome A * S.

Definition ret {S A} (a : A) : Async S A := fun w => (Resolved a, w).

Definition throw {S A} (e : Thrown) : Async S A := fun w => (Rejected e, w).

Definition bind {S A B} (m : Async S A) (k : A -> Async S B) : Async S B :=
  fun w =>
    match m w with
    | (Resolved a, w') => k a w'
    | (Rejected e, w') => (Rejected e, w')
    end.

(** [try { body } catch (error) { handler }] *)
Definition tryCatch {S A} (body : Async S A) (handler : Thrown -> Async S A)
    : Async S A :=
  fun w =>
    match body w with
    | (Resolved a, w') => (Resolved a, w')
    | (Rejected e, w') => handler e w'
    end.

Definition gets {S A} (f : S -> A) : Async S A := fun w => (Resolved (f w), w).

Definition modify {S} (f : S -> S) : Async S unit := fun w => (Resolved tt, f w).

Declare Scope async_scope.
Delimit Scope async_scope with async.
Notation "x <- c1 ;; c2" := (bind c1 (fun x => c2))
  (at level 100, c1 at next level, right associativity) : async_scope.
Notation "c1 ;; c2" := (bind c1 (fun _ => c2))
  (at level 100, right associativity) : async_scope.
Open Scope async_scope.

(** [for (const x of l) { body }] *)
Fixpoint forEach {S A} (l : list A) (body : A -> Async S unit) : Async S unit :=
  match l with
  | [] => ret tt
  | x :: rest => body x ;; forEach rest body
  end.

Definition when {S} (b : bool) (m : Async S unit) : Async S unit :=
  if b then m else ret tt.

Module Relay.

(** ** Types of [relay_controller.ts] *)

Inductive StreamPlatform : Type := youtube | linkedin.

Definition platform_eqb (a b : StreamPlatform) : bool :=
  match a, b with
  | youtube, youtube | linkedin, linkedin => true
  | _, _ => false
  end.

Record StreamDestination : Type := mkDestination {
  platform : StreamPlatform;
  accountId : string;
  enabled : bool;
  streamKey : option string;
  rtmpUrl : option string
}.

Record RelayConfig : Type := mkConfig {
  bitrate : Z;
  resolution : string;
  frameRate : Z;
  audioQuality : Z;
  encoder : string;
  preset : string;
  customParams : option (list (string * string))
}.

Inductive Visibility : Type := vis_public | vis_private | vis_unlisted.

Record StreamSettings : Type := mkSettings {
  title : string;
  description : string;
  visibility : Visibility;
  tags : option (list string);
  scheduledStartTime : option Z;
  scheduledEndTime : option Z
}.

(** Dates are milliseconds since the epoch.  The [startedAt] and [error]
    properties of a platform entry carry the prefix [ps_] to keep them apart
    from the properties of the same name of the aggregate. *)
Record PlatformStatus : Type := mkPlatformStatus {
  isStreaming : bool;
  streamId : option string;
  viewerCount : option Z;
  ps_startedAt : option Z;
  ps_error : option string
}.

(** [platforms: { youtube?: PlatformStatus; linkedin?: PlatformStatus }] *)
Record Platforms : Type := mkPlatforms {
  pf_youtube : option PlatformStatus;
  pf_linkedin : option PlatformStatus
}.

Record RelayStatus : Type := mkStatus {
  isActive : bool;
  startedAt : option Z;
  duration : option Z;
  rs_bitrate : option Z;
  platforms : Platforms;
  error : option string
}.

(** [currentStatus.platforms[platform]] read and written. *)
Definition getPlatform (p : StreamPlatform) (pf : Platforms) : option PlatformStatus :=
  match p with
  | youtube => pf_youtube pf
  | linkedin => pf_linkedin pf
  end.

Definition setPlatform (p : StreamPlatform) (s : PlatformStatus) (pf : Platforms) : Platforms :=
  match p with
  | youtube => mkPlatforms (Some s) (pf_linkedin pf)
  | linkedin => mkPlatforms (pf_youtube pf) (Some s)
  end.

Definition noPlatforms : Platforms := mkPlatforms None None.

(** The object literals the source assigns to a platform slot. *)
Definition streamingStatus (id : string) (now : Z) : PlatformStatus :=
  mkPlatformStatus true (Some id) None (Some now) None.

Definition failedStatus (msg : string) : PlatformStatus :=
  mkPlatformStatus false None None None (Some msg).

Definition stoppedStatus : PlatformStatus :=
  mkPlatformStatus false None None None None.

(** ** The outside world *)

(** One call on a platform client, with the account the client was created
    for and the arguments passed. *)
Inductive ApiCall : Type :=
  | YtCreateBroadcast (account title descr : string)
      (scheduledStart scheduledEnd : option Z) (privacyStatus : Visibility)
  | YtCreateStream (account title res : string) (rate : Z)
  | YtBindStreamToBroadcast (account broadcastId streamIdent : string)
  | YtStartBroadcast (account broadcastId : string)
  | YtEndBroadcast (account broadcastId : string)
  | LiCreateLiveEvent (account title descr : string) (vis : Visibility)
  | LiStartLiveEvent (account eventId : string)
  | LiEndLiveEvent (account eventId : string).

Definition callPlatform (c : ApiCall) : StreamPlatform :=
  match c with
  | YtCreateBroadcast _ _ _ _ _ _ | YtCreateStream _ _ _ _
  | YtBindStreamToBroadcast _ _ _ | YtStartBroadcast _ _
  | YtEndBroadcast _ _ => youtube
  | LiCreateLiveEvent _ _ _ _ | LiStartLiveEvent _ _
  | LiEndLiveEvent _ _ => linkedin
  end.

Definition callAccount (c : ApiCall) : string :=
  match c with
  | YtCreateBroadcast a _ _ _ _ _ | YtCreateStream a _ _ _
  | YtBindStreamToBroadcast a _ _ | YtStartBroadcast a _
  | YtEndBroadcast a _ | LiCreateLiveEvent a _ _ _
  | LiStartLiveEvent a _ | LiEndLiveEvent a _ => a
  end.

(** Calls that begin or advance a start sequence, as opposed to ending a
    broadcast. *)
Definition isStartCall (c : ApiCall) : bool :=
  match c with
  | YtEndBroadcast _ _ | LiEndLiveEvent _ _ => false
  | _ => true
  end.

Definition isEndCall (c : ApiCall) : bool := negb (isStartCall c).

(** Values kept under the generic-data keys of the store. *)
Inductive StoredValue : Type :=
  | SvConfig (c : RelayConfig)
  | SvDestinations (ds : list StreamDestination)
  | SvStatus (s : RelayStatus).

Inductive StoreOp : Type :=
  | KvSet (key : string)
  | KvGet (key : string).

(** What the controller does not decide: the answer of a platform client to
    each call (the [id] of the created resource, or the exception it
    throws), whether the backend of the store serves an operation ([None])
    or throws, the time an awaited call takes, and the number drawn for the
    simulated relay process. *)
Record Env : Type := mkEnv {
  api : ApiCall -> Outcome string;
  kvFault : StoreOp -> option string;
  latency : Z;
  randomPid : Z
}.

(** The module-level variables of the source ([currentConfig],
    [destinations], [currentStatus], [_streamProcessId]), the durable
    content of the store, the wall clock, the platform calls made so far
    (oldest first) and the environment. *)
Record World : Type := mkWorld {
  currentConfig : option RelayConfig;
  destinations : list StreamDestination;
  currentStatus : RelayStatus;
  streamProcessId : option Z;
  store : gmap string StoredValue;
  clock : Z;
  apiLog : list ApiCall;
  env : Env
}.

Definition setConfig (c : option RelayConfig) (w : World) : World :=
  mkWorld c (destinations w) (currentStatus w) (streamProcessId w)
          (store w) (clock w) (apiLog w) (env w).

Definition setDestinations (ds : list StreamDestination) (w : World) : World :=
  mkWorld (currentConfig w) ds (currentStatus w) (streamProcessId w)
          (store w) (clock w) (apiLog w) (env w).

Definition setStatus (s : RelayStatus) (w : World) : World :=
  mkWorld (currentConfig w) (destinations w) s (streamProcessId w)
          (store w) (clock w) (apiLog w) (env w).

Definition setProcessId (p : option Z) (w : World) : World :=
  mkWorld (currentConfig w) (destinations w) (currentStatus w) p
          (store w) (clock w) (apiLog w) (env w).

Definition setStore (m : gmap string StoredValue) (w : World) : World :=
  mkWorld (currentConfig w) (destinations w) (currentStatus w)
          (streamProcessId w) m (clock w) (apiLog w) (env w).

(** An awaited external call takes [latency] milliseconds. *)
Definition elapse (w : World) : World :=
  mkWorld (currentConfig w) (destinations w) (currentStatus w)
          (streamProcessId w) (store w) (clock w + latency (env w))
          (apiLog w) (env w).

Definition logCall (c : ApiCall) (w : World) : World :=
  mkWorld (currentConfig w) (destinations w) (currentStatus w)
          (streamProcessId w) (store w) (clock w) (apiLog w ++ [c]) (env w).

(** Assignments to properties of [currentStatus]. *)
Definition withActive (b : bool) (s : RelayStatus) : RelayStatus :=
  mkStatus b (startedAt s) (duration s) (rs_bitrate s) (platforms s) (error s).

Definition withError (msg : string) (s : RelayStatus) : RelayStatus :=
  mkStatus (isActive s) (startedAt s) (duration s) (rs_bitrate s)
           (platforms s) (Some msg).

Definition withDuration (d : Z) (s : RelayStatus) : RelayStatus :=
  mkStatus (isActive s) (startedAt s) (Some d) (rs_bitrate s)
           (platforms s) (error s).

Definition withPlatform (p : StreamPlatform) (ps : PlatformStatus)
    (s : RelayStatus) : RelayStatus :=
  mkStatus (isActive s) (startedAt s) (duration s) (rs_bitrate s)
           (setPlatform p ps (platforms s)) (error s).

Abbreviation M := (Async World).

Definition updStatus (f : RelayStatus -> RelayStatus) (w : World) : World :=
  setStatus (f (currentStatus w)) w.

(** ** The generic-data store ([saveData] / [getData])

    The durable variant is embedded: a write stores a snapshot of the value.
    The store's read cache is left out: [saveData] clears the entry of the
    key it writes, and the controller reads only in [initialize], at
    start-up, when the cache is empty. *)

Definition saveData (key : string) (data : StoredValue) : M unit :=
  fun w =>
    match kvFault (env w) (KvSet key) with
    | Some msg =>
        (Rejected (JsError ("Failed to save data with key " ++ dquote ++ key
                              ++ dquote ++ ": " ++ msg)), elapse w)
    | None => (Resolved tt, elapse (setStore (<[key := data]> (store w)) w))
    end.

Definition getData (key : string) : M (option StoredValue) :=
  fun w =>
    match kvFault (env w) (KvGet key) with
    | Some msg =>
        (Rejected (JsError ("Failed to get data with key " ++ dquote ++ key
                              ++ dquote ++ ": " ++ msg)), elapse w)
    | None => (Resolved (store w !! key), elapse w)
    end.

(** An awaited method of a platform client: the call is recorded, takes its
    time, and settles as the environment says. *)
Definition callApi (c : ApiCall) : M string :=
  fun w => (api (env w) c, elapse (logCall c w)).

(** ** [configureRelay] *)

Definition configureRelay (config : RelayConfig) : M unit :=
  tryCatch
    (saveData "relay_config" (SvConfig config) ;;
     modify (setConfig (Some config)) ;;
     ret tt)
    (fun e => throw e).

(** ** The destination registry *)

(** [d.platform === platform && d.accountId === accountId] *)
Definition sameIdentity (p : StreamPlatform) (a : string)
    (d : StreamDestination) : bool :=
  platform_eqb (platform d) p && String.eqb (accountId d) a.

(** [Array.prototype.findIndex], with [None] for [-1]. *)
Fixpoint findIndex {A} (f : A -> bool) (l : list A) : option nat :=
  match l with
  | [] => None
  | x :: rest => if f x then Some 0%nat else S <$> findIndex f rest
  end.

(** [{ ...existing, ...destination }]: the three required properties come
    from [destination]; an optional property that [destination] omits keeps
    the value of [existing]. *)
Definition mergeDestination (existing destination : StreamDestination)
    : StreamDestination :=
  mkDestination (platform destination) (accountId destination)
    (enabled destination)
    (match streamKey destination with
     | Some k => Some k
     | None => streamKey existing
     end)
    (match rtmpUrl destination with
     | Some u => Some u
     | None => rtmpUrl existing
     end).

(** The update of the array in [addDestination].  The index returned by
    [findIndex] is within the array, so the spread of an [undefined] element
    and the assignment past the end do not occur. *)
Definition upsertDestination (destination : StreamDestination)
    (ds : list StreamDestination) : list StreamDestination :=
  match findIndex (sameIdentity (platform destination) (accountId destination)) ds with
  | Some i =>
      match ds !! i with
      | Some existing => <[i := mergeDestination existing destination]> ds
      | None => ds
      end
  | None => ds ++ [destination]
  end.

Definition addDestination (destination : StreamDestination) : M unit :=
  tryCatch
    (modify (fun w => setDestinations (upsertDestination destination (destinations w)) w) ;;
     ds <- gets destinations ;;
     saveData "stream_destinations" (SvDestinations ds) ;;
     ret tt)
    (fun e => throw e).

(** ** Starting one platform *)

(** [currentConfig?.resolution || "720p"] and [currentConfig?.frameRate || 30] *)
Definition configResolution (c : option RelayConfig) : string :=
  match c with
  | Some cfg => if truthy (resolution cfg) then resolution cfg else "720p"
  | None => "720p"
  end.

Definition configFrameRate (c : option RelayConfig) : Z :=
  match c with
  | Some cfg => if frameRate cfg =? 0 then 30 else frameRate cfg
  | None => 30
  end.

Definition startYouTubeStream (destination : StreamDestination)
    (settings : StreamSettings) : M unit :=
  tryCatch
    (broadcast <- callApi (YtCreateBroadcast (accountId destination)
                     (title settings) (description settings)
                     (scheduledStartTime settings) (scheduledEndTime settings)
                     (visibility settings)) ;;
     cfg <- gets currentConfig ;;
     stream <- callApi (YtCreateStream (accountId destination) (title settings)
                     (configResolution cfg) (configFrameRate cfg)) ;;
     callApi (YtBindStreamToBroadcast (accountId destination) broadcast stream) ;;
     callApi (YtStartBroadcast (accountId destination) broadcast) ;;
     now <- gets clock ;;
     modify (updStatus (withPlatform youtube (streamingStatus broadcast now))) ;;
     ret tt)
    (fun e =>
       modify (updStatus (withPlatform youtube (failedStatus (errorMessage e)))) ;;
       throw e).

Definition startLinkedInStream (destination : StreamDestination)
    (settings : StreamSettings) : M unit :=
  tryCatch
    (liveEvent <- callApi (LiCreateLiveEvent (accountId destination)
                     (title settings) (description settings)
                     (visibility settings)) ;;
     callApi (LiStartLiveEvent (accountId destination) liveEvent) ;;
     now <- gets clock ;;
     modify (updStatus (withPlatform linkedin (streamingStatus liveEvent now))) ;;
     ret tt)
    (fun e =>
       modify (updStatus (withPlatform linkedin (failedStatus (errorMessage e)))) ;;
       throw e).

(** ** Stopping one platform *)

(** [currentStatus.platforms.<p>?.isStreaming] and [...?.streamId] *)
Definition platformStreaming (p : StreamPlatform) (s : RelayStatus) : bool :=
  match getPlatform p (platforms s) with
  | Some ps => isStreaming ps
  | None => false
  end.

Definition platformStreamId (p : StreamPlatform) (s : RelayStatus) : option string :=
  match getPlatform p (platforms s) with
  | Some ps => streamId ps
  | None => None
  end.

(** [d.platform === p && (accountId ? d.accountId === accountId : true)] *)
Definition matchesStop (p : StreamPlatform) (account : option string)
    (d : StreamDestination) : bool :=
  platform_eqb (platform d) p &&
  match account with
  | Some a => if truthy a then String.eqb (accountId d) a else true
  | None => true
  end.

(** [accountId || "any"] *)
Definition accountOrAny (account : option string) : string :=
  match account with
  | Some a => if truthy a then a else "any"
  | None => "any"
  end.

Definition platformName (p : StreamPlatform) : string :=
  match p with
  | youtube => "YouTube"
  | linkedin => "LinkedIn"
  end.

(** The call that ends the remote resource: [endBroadcast] on the YouTube
    client, [endLiveEvent] on the LinkedIn client. *)
Definition endCall (p : StreamPlatform) (account id : string) : ApiCall :=
  match p with
  | youtube => YtEndBroadcast account id
  | linkedin => LiEndLiveEvent account id
  end.

(** One branch of [stopPlatformStream]; the two branches of the source
    differ in the platform only. *)
Definition stopBranch (p : StreamPlatform) (account : option string) : M unit :=
  ds <- gets destinations ;;
  match find (matchesStop p account) ds with
  | None =>
      throw (JsError (platformName p ++ " destination not found for account "
                        ++ accountOrAny account))
  | Some d =>
      st <- gets currentStatus ;;
      match platformStreamId p st with
      | Some id => if truthy id
                   then (callApi (endCall p (accountId d) id) ;; ret tt)
                   else ret tt
      | None => ret tt
      end ;;
      modify (updStatus (withPlatform p stoppedStatus))
  end.

Definition stopPlatformStream (p : StreamPlatform) (account : option string)
    : M unit :=
  tryCatch
    (st <- gets currentStatus ;;
     match p with
     | youtube => when (platformStreaming youtube st) (stopBranch youtube account)
     | linkedin => when (platformStreaming linkedin st) (stopBranch linkedin account)
     end ;;
     ret tt)
    (fun e => throw e).

(** ** [removeDestination] *)

Definition removeDestination (p : StreamPlatform) (account : string) : M unit :=
  tryCatch
    (modify (fun w => setDestinations
               (List.filter (fun d => negb (sameIdentity p account d)) (destinations w)) w) ;;
     ds <- gets destinations ;;
     saveData "stream_destinations" (SvDestinations ds) ;;
     st <- gets currentStatus ;;
     when (isActive st && bool_decide (is_Some (getPlatform p (platforms st))))
       (match p with
        | youtube =>
            when (truthyOpt (platformStreamId youtube st))
                 (stopPlatformStream youtube (Some account))
        | linkedin =>
            when (truthyOpt (platformStreamId linkedin st))
                 (stopPlatformStream linkedin (Some account))
        end) ;;
     ret tt)
    (fun e => throw e).

(** ** [startStream] *)

Definition notConfiguredMessage : string :=
  "Relay not configured. Call configureRelay first.".

Definition noDestinationsMessage : string :=
  "No destinations configured. Add at least one destination.".

(** The [try] block of the loop body: the start sequence of the
    destination's platform. *)
Definition startPlatform (settings : StreamSettings)
    (destination : StreamDestination) : M unit :=
  match platform destination with
  | youtube => startYouTubeStream destination settings
  | linkedin => startLinkedInStream destination settings
  end.

(** The body of the [for] loop: one destination, its failure caught. *)
Definition startDestination (settings : StreamSettings)
    (destination : StreamDestination) : M unit :=
  tryCatch
    (startPlatform settings destination)
    (fun e =>
       modify (updStatus (withPlatform (platform destination)
                            (failedStatus (errorMessage e))))).

Definition startStream (settings : StreamSettings) : M unit :=
  tryCatch
    (st <- gets currentStatus ;;
     if isActive st then ret tt
     else
       cfg <- gets currentConfig ;;
       match cfg with
       | None => throw (JsError notConfiguredMessage)
       | Some _ =>
           ds <- gets destinations ;;
           if (length ds =? 0)%nat
           then throw (JsError noDestinationsMessage)
           else
             now <- gets clock ;;
             modify (setStatus (mkStatus true (Some now) None None noPlatforms None)) ;;
             ds' <- gets destinations ;;
             forEach (List.filter enabled ds') (startDestination settings) ;;
             pid <- gets (fun w => randomPid (env w)) ;;
             modify (setProcessId (Some pid)) ;;
             st' <- gets currentStatus ;;
             saveData "stream_status" (SvStatus st') ;;
             ret tt
       end)
    (fun e =>
       modify (updStatus (withActive false)) ;;
       modify (updStatus (withError (errorMessage e))) ;;
       throw e).

(** ** [stopStream] *)

Definition stopStream : M unit :=
  tryCatch
    (st <- gets currentStatus ;;
     if negb (isActive st) then ret tt
     else
       when (platformStreaming youtube st) (stopPlatformStream youtube None) ;;
       st1 <- gets currentStatus ;;
       when (platformStreaming linkedin st1) (stopPlatformStream linkedin None) ;;
       modify (updStatus (withActive false)) ;;
       modify (setProcessId None) ;;
       st2 <- gets currentStatus ;;
       match startedAt st2 with
       | Some t0 =>
           endTime <- gets clock ;;
           modify (updStatus (withDuration ((endTime - t0) / 1000)))
       | None => ret tt
       end ;;
       st3 <- gets currentStatus ;;
       saveData "stream_status" (SvStatus st3) ;;
       ret tt)
    (fun e => throw e).

(** ** [getRelayStatus]: [{ ...currentStatus }] *)

Definition getRelayStatus (w : World) : RelayStatus := currentStatus w.

(** ** [initialize]

    A value read under a key has the shape the controller wrote there; a
    value of another shape, which the controller never writes, is skipped. *)

Definition interruptedMessage : string :=
  "Stream was interrupted due to application restart".

Definition initialize : M unit :=
  tryCatch
    (tryCatch
       (savedConfig <- getData "relay_config" ;;
        match savedConfig with
        | Some (SvConfig c) => modify (setConfig (Some c))
        | _ => ret tt
        end ;;
        savedDestinations <- getData "stream_destinations" ;;
        match savedDestinations with
        | Some (SvDestinations ds) => modify (setDestinations ds)
        | _ => ret tt
        end ;;
        savedStatus <- getData "stream_status" ;;
        match savedStatus with
        | Some (SvStatus s) =>
            (if isActive s
             then
               let s' := withError interruptedMessage (withActive false s) in
               saveData "stream_status" (SvStatus s') ;;
               modify (setStatus s')
             else modify (setStatus s))
        | _ => ret tt
        end)
       (fun _ => ret tt))
    (fun _ => ret tt).

(** The state in which the module is loaded, before [initialize] runs. *)
Definition initialStatus : RelayStatus :=
  mkStatus false None None None noPlatforms None.

Definition moduleLoad (persisted : gmap string StoredValue) (now : Z)
    (e : Env) : World :=
  mkWorld None [] initialStatus None persisted now [] e.

(** ** Vocabulary of the statements *)

(** The first call of a start sequence, whose answer is the identifier kept
    in the platform entry. *)
Definition createCall (settings : StreamSettings) (d : StreamDestination)
    : ApiCall :=
  match platform d with
  | youtube =>
      YtCreateBroadcast (accountId d) (title settings) (description settings)
        (scheduledStartTime settings) (scheduledEndTime settings)
        (visibility settings)
  | linkedin =>
      LiCreateLiveEvent (accountId d) (title settings) (description settings)
        (visibility settings)
  end.

(** How the remote start sequence of [d] settles in the environment and
    under the configuration of [w]. *)
Definition startSettles (settings : StreamSettings) (d : StreamDestination)
    (w : World) : Outcome unit :=
  fst (startPlatform settings d w).

(** A call made on behalf of destination [d] while starting it. *)
Definition startCallOf (d : StreamDestination) (c : ApiCall) : Prop :=
  isStartCall c = true /\ callPlatform c = platform d /\
  callAccount c = accountId d.

(** The entry a start sequence leaves in its platform's slot. *)
Definition entryOf (settings : StreamSettings) (d : StreamDestination)
    (w : World) (ps : PlatformStatus) : Prop :=
  match startSettles settings d w with
  | Resolved _ =>
      exists ident t, api (env w) (createCall settings d) = Resolved ident /\
                      ps = streamingStatus ident t
  | Rejected e => ps = failedStatus (errorMessage e)
  end.

(** Everything but the platform slots, the clock and the call log. *)
Definition sameOutsidePlatforms (w w' : World) : Prop :=
  currentConfig w' = currentConfig w /\
  destinations w' = destinations w /\
  streamProcessId w' = streamProcessId w /\
  store w' = store w /\
  env w' = env w /\
  isActive (currentStatus w') = isActive (currentStatus w) /\
  startedAt (currentStatus w') = startedAt (currentStatus w) /\
  duration (currentStatus w') = duration (currentStatus w) /\
  rs_bitrate (currentStatus w') = rs_bitrate (currentStatus w) /\
  error (currentStatus w') = error (currentStatus w).

(** The world in which the fan-out loop of an accepted [startStream]
    begins. *)
Definition startedWorld (w : World) : World :=
  setStatus (mkStatus true (Some (clock w)) None None noPlatforms None) w.

(** The exported operations, and the worlds the controller can be in: the
    module is loaded over some persisted store, operations run one after the
    other, and between two operations the environment and the clock may
    change. *)
Inductive Operation : Type :=
  | OpInitialize
  | OpConfigure (config : RelayConfig)
  | OpAdd (destination : StreamDestination)
  | OpRemove (p : StreamPlatform) (account : string)
  | OpStart (settings : StreamSettings)
  | OpStop.

Definition runOp (o : Operation) : M unit :=
  match o with
  | OpInitialize => initialize
  | OpConfigure c => configureRelay c
  | OpAdd d => addDestination d
  | OpRemove p a => removeDestination p a
  | OpStart s => startStream s
  | OpStop => stopStream
  end.

Definition setOutside (now : Z) (e : Env) (w : World) : World :=
  mkWorld (currentConfig w) (destinations w) (currentStatus w)
          (streamProcessId w) (store w) now (apiLog w) e.

Inductive Reachable : World -> Prop :=
  | reach_load persisted now e : Reachable (moduleLoad persisted now e)
  | reach_op o w : Reachable w -> Reachable (snd (runOp o w))
  | reach_outside now e w : Reachable w -> Reachable (setOutside now e w).

(** The number of records of the registry with a given identity, and the
    registry invariant: at most one record per identity. *)
Definition countIdentity (p : StreamPlatform) (a : string)
    (ds : list StreamDestination) : nat :=
  length (List.filter (sameIdentity p a) ds).

Definition uniqueIdentities (ds : list StreamDestination) : Prop :=
  forall p a, (countIdentity p a ds <= 1)%nat.

End Relay.

Module StateManager.

(** ** The account store of [state_manager.ts]

    The embedding covers the four account methods and the private cache
    methods they use.  The manager is the initialized singleton returned by
    [StateManager.create], so [ensureInitialized] returns at once.  The
    methods read [Date.now()] from the [now] field; time passes between
    calls. *)

Inductive Platform : Type := youtube | linkedin.

Definition platformKey (p : Platform) : string :=
  match p with
  | youtube => "youtube"
  | linkedin => "linkedin"
  end.

Record Profile : Type := mkProfile {
  name : option string;
  email : option string;
  picture : option string
}.

Record Account : Type := mkAccount {
  id : string;
  platform : Platform;
  accessToken : string;
  refreshToken : string;
  expiresAt : Z;
  profile : option Profile
}.

(** A key of the Deno KV store: its parts, all strings here. *)
Abbreviation KvKey := (list string).

Definition ACCOUNTS_PREFIX : KvKey := ["accounts"].

(** The cache holds what the account readers put there: one account, or a
    list of accounts. *)
Inductive CacheValue : Type :=
  | CvAccount (a : Account)
  | CvAccounts (l : list Account).

Record Manager : Type := mkManager {
  kv : list (KvKey * Account);
  kvError : option string;
  cache : gmap string CacheValue;
  cacheExpiry : gmap string Z;
  now : Z
}.

Abbreviation SM := (Async Manager).

Definition DEFAULT_CACHE_TTL : Z := 5 * 60 * 1000.

(** *** Deno KV: entries ordered by key, one entry per key

    String parts are ordered by their bytes and a key sorts after its proper
    prefixes.  [kvError], when set, is the message of the exception every
    operation of the backend throws. *)

Fixpoint keyCompare (a b : KvKey) : comparison :=
  match a, b with
  | [], [] => Eq
  | [], _ :: _ => Lt
  | _ :: _, [] => Gt
  | x :: a', y :: b' =>
      match String.compare x y with
      | Eq => keyCompare a' b'
      | c => c
      end
  end.

Fixpoint kvInsert (k : KvKey) (v : Account) (l : list (KvKey * Account))
    : list (KvKey * Account) :=
  match l with
  | [] => [(k, v)]
  | (k', v') :: rest =>
      match keyCompare k k' with
      | Lt => (k, v) :: (k', v') :: rest
      | Eq => (k, v) :: rest
      | Gt => (k', v') :: kvInsert k v rest
      end
  end.

Fixpoint kvLookup (k : KvKey) (l : list (KvKey * Account)) : option Account :=
  match l with
  | [] => None
  | (k', v') :: rest =>
      match keyCompare k k' with
      | Eq => Some v'
      | _ => kvLookup k rest
      end
  end.

Definition kvRemove (k : KvKey) (l : list (KvKey * Account))
    : list (KvKey * Account) :=
  List.filter (fun e => match keyCompare k (fst e) with Eq => false | _ => true end) l.

(** [prefix] is a proper prefix of [k]: the selector [{ prefix }] of
    [kv.list] yields the keys below the prefix, not the prefix itself. *)
Fixpoint properPrefix (prefix k : KvKey) : bool :=
  match prefix, k with
  | [], _ :: _ => true
  | x :: prefix', y :: k' => String.eqb x y && properPrefix prefix' k'
  | _, _ => false
  end.

Definition backend {A} (f : Manager -> A * Manager) : SM A :=
  fun m =>
    match kvError m with
    | Some msg => (Rejected (JsError msg), m)
    | None => let (a, m') := f m in (Resolved a, m')
    end.

Definition setKv (l : list (KvKey * Account)) (m : Manager) : Manager :=
  mkManager l (kvError m) (cache m) (cacheExpiry m) (now m).

Definition kv_set (k : KvKey) (v : Account) : SM unit :=
  backend (fun m => (tt, setKv (kvInsert k v (kv m)) m)).

Definition kv_get (k : KvKey) : SM (option Account) :=
  backend (fun m => (kvLookup k (kv m), m)).

Definition kv_delete (k : KvKey) : SM unit :=
  backend (fun m => (tt, setKv (kvRemove k (kv m)) m)).

(** The values of the entries under a prefix, in key order (the [for await]
    loop that pushes each [entry.value]). *)
Definition kv_list (prefix : KvKey) : SM (list Account) :=
  backend (fun m =>
    (List.map snd (List.filter (fun e => properPrefix prefix (fst e)) (kv m)), m)).

(** *** The cache *)

Definition setCache (c : gmap string CacheValue) (x : gmap string Z)
    (m : Manager) : Manager :=
  mkManager (kv m) (kvError m) c x (now m).

(** [JSON.stringify] of an array of strings.  A string is the sequence of
    its bytes.  Between the quotes, [QuoteJSONString] escapes the quote, the
    backslash and the control characters (below 0x20): backspace, tab, line
    feed, form feed and carriage return by their short forms, the other
    control characters as [\u00] followed by two lower-case hexadecimal
    digits; every other byte stands for itself. *)
Definition backslash : string := String (Ascii.ascii_of_nat 92) "".

Definition hexDigit (n : nat) : string :=
  String (Ascii.ascii_of_nat (if (n <? 10)%nat then 48 + n else 87 + n)%nat) "".

Definition escapeChar (c : Ascii.ascii) : string :=
  let n := Ascii.nat_of_ascii c in
  if (n =? 8)%nat then backslash ++ "b"
  else if (n =? 9)%nat then backslash ++ "t"
  else if (n =? 10)%nat then backslash ++ "n"
  else if (n =? 12)%nat then backslash ++ "f"
  else if (n =? 13)%nat then backslash ++ "r"
  else if (n =? 34)%nat then backslash ++ dquote
  else if (n =? 92)%nat then backslash ++ backslash
  else if (n <? 32)%nat
  then backslash ++ "u00" ++ hexDigit (n / 16) ++ hexDigit (n mod 16)
  else String c "".

Fixpoint jsonEscape (s : string) : string :=
  match s with
  | EmptyString => EmptyString
  | String c rest => escapeChar c ++ jsonEscape rest
  end.

Definition jsonString (s : string) : string := dquote ++ jsonEscape s ++ dquote.

Definition generateCacheKey (keyParts : KvKey) : string :=
  "[" ++ String.concat "," (List.map jsonString keyParts) ++ "]".

Definition getCachedValue (key : string) : SM (option CacheValue) :=
  fun m =>
    match cacheExpiry m !! key with
    | Some expiry =>
        if negb (expiry =? 0) && (now m <? expiry)
        then (Resolved (cache m !! key), m)
        else if negb (expiry =? 0)
        then (Resolved None,
              setCache (delete key (cache m)) (delete key (cacheExpiry m)) m)
        else (Resolved None, m)
    | None => (Resolved None, m)
    end.

Definition setCachedValue (key : string) (value : CacheValue) (ttl : Z)
    : SM unit :=
  modify (fun m =>
    setCache (<[key := value]> (cache m)) (<[key := now m + ttl]> (cacheExpiry m)) m).

Definition clearCacheKey (key : string) : SM unit :=
  modify (fun m => setCache (delete key (cache m)) (delete key (cacheExpiry m)) m).

(** *** The account methods *)

Definition accountKey (p : Platform) (ident : string) : KvKey :=
  ACCOUNTS_PREFIX ++ [platformKey p; ident].

Definition platformPrefix (p : Platform) : KvKey :=
  ACCOUNTS_PREFIX ++ [platformKey p].

(** [throw new Error(`<what>: ${errorMessage}`)] *)
Definition rethrow {A} (what : string) (e : Thrown) : SM A :=
  throw (JsError (what ++ ": " ++ errorMessage e)).

Definition saveAccount (account : Account) : SM unit :=
  tryCatch
    (let key := accountKey (platform account) (id account) in
     kv_set key account ;;
     clearCacheKey (generateCacheKey key) ;;
     clearCacheKey (generateCacheKey ACCOUNTS_PREFIX))
    (rethrow "Failed to save account").

(** A cached value has the shape its key was written with; an entry of the
    other shape, which no method writes under that key, reads as a miss. *)
Definition getAccount (p : Platform) (ident : string) : SM (option Account) :=
  tryCatch
    (let key := accountKey p ident in
     let cacheKey := generateCacheKey key in
     cachedAccount <- getCachedValue cacheKey ;;
     match cachedAccount with
     | Some (CvAccount a) => ret (Some a)
     | _ =>
         result <- kv_get key ;;
         match result with
         | Some a => setCachedValue cacheKey (CvAccount a) DEFAULT_CACHE_TTL ;;
                     ret (Some a)
         | None => ret None
         end
     end)
    (rethrow "Failed to get account").

Definition getAccountsByPlatform (p : Platform) : SM (list Account) :=
  tryCatch
    (let prefix := platformPrefix p in
     let cacheKey := generateCacheKey prefix in
     cachedAccounts <- getCachedValue cacheKey ;;
     match cachedAccounts with
     | Some (CvAccounts l) => ret l
     | _ =>
         accounts <- kv_list prefix ;;
         setCachedValue cacheKey (CvAccounts accounts) DEFAULT_CACHE_TTL ;;
         ret accounts
     end)
    (rethrow "Failed to get accounts by platform").

Definition getAllAccounts : SM (list Account) :=
  tryCatch
    (let cacheKey := generateCacheKey ACCOUNTS_PREFIX in
     cachedAccounts <- getCachedValue cacheKey ;;
     match cachedAccounts with
     | Some (CvAccounts l) => ret l
     | _ =>
         accounts <- kv_list ACCOUNTS_PREFIX ;;
         setCachedValue cacheKey (CvAccounts accounts) DEFAULT_CACHE_TTL ;;
         ret accounts
     end)
    (rethrow "Failed to get all accounts").

Definition deleteAccount (p : Platform) (ident : string) : SM unit :=
  tryCatch
    (let key := accountKey p ident in
     kv_delete key ;;
     clearCacheKey (generateCacheKey key) ;;
     clearCacheKey (generateCacheKey ACCOUNTS_PREFIX) ;;
     clearCacheKey (generateCacheKey (platformPrefix p)))
    (rethrow "Failed to delete account").

(** Time passing between two calls. *)
Definition advance (dt : Z) (m : Manager) : Manager :=
  mkManager (kv m) (kvError m) (cache m) (cacheExpiry m) (now m + dt).

(** A fresh manager over an empty database. *)
Definition emptyManager (t : Z) : Manager := mkManager [] None ∅ ∅ t.

End StateManager.

(** * Concrete scenarios

    Worlds obtained by running the exported operations from the load of the
    module, in the manner of the repository's example and test scripts. *)

Module Scenario.
Import Relay.

Definition afterOps (ops : list Operation) (w : World) : World :=
  fold_left (fun w' o => snd (runOp o w')) ops w.

Definition config720 : RelayConfig :=
  mkConfig 2500 "720p" 30 128 "x264" "veryfast" None.

Definition settingsT : StreamSettings :=
  mkSettings "T" "D" vis_public None None None.

Definition ytAcc1 : StreamDestination := mkDestination youtube "acc1" true None None.
Definition ytAcc2 : StreamDestination := mkDestination youtube "acc2" true None None.
Definition liAcc1 : StreamDestination := mkDestination linkedin "acc1" true None None.
Definition ytDisabled : StreamDestination := mkDestination youtube "acc1" false None None.

(** Both platforms answer every call. *)
Definition apiAllOk (c : ApiCall) : Outcome string :=
  match c with
  | YtCreateBroadcast _ _ _ _ _ _ => Resolved "b1"
  | YtCreateStream _ _ _ _ => Resolved "s1"
  | LiCreateLiveEvent _ _ _ _ => Resolved "e1"
  | _ => Resolved ""
  end.

(** The LinkedIn client finds no account. *)
Definition apiLinkedInDown (c : ApiCall) : Outcome string :=
  match c with
  | LiCreateLiveEvent _ _ _ _ | LiStartLiveEvent _ _ | LiEndLiveEvent _ _ =>
      Rejected (JsError "LinkedIn account acc1 not found")
  | _ => apiAllOk c
  end.

(** YouTube refuses to end the broadcast. *)
Definition apiYouTubeEndFails (c : ApiCall) : Outcome string :=
  match c with
  | YtEndBroadcast _ _ => Rejected (JsError "YouTube API error: 403")
  | _ => apiAllOk c
  end.

(** The clients find no account [acc2]. *)
Definition apiAcc2Missing (c : ApiCall) : Outcome string :=
  if String.eqb (callAccount c) "acc2"
  then Rejected (JsError "YouTube account acc2 not found")
  else apiAllOk c.

Definition envOf (a : ApiCall -> Outcome string) : Env :=
  mkEnv a (fun _ => None) 5 42.

(** The module loaded over an empty store, at time 1000. *)
Definition freshWorld (a : ApiCall -> Outcome string) : World :=
  moduleLoad ∅ 1000 (envOf a).

(** Configured, with a YouTube and a LinkedIn destination, both enabled. *)
Definition readyWorld (a : ApiCall -> Outcome string) : World :=
  afterOps [OpConfigure config720; OpAdd ytAcc1; OpAdd liAcc1] (freshWorld a).

(** Configured, with one destination, disabled. *)
Definition allDisabledWorld : World :=
  afterOps [OpConfigure config720; OpAdd ytDisabled] (freshWorld apiAllOk).

(** Configured, with two enabled YouTube destinations of different
    accounts, the second of which has no account behind it. *)
Definition twoAccountsWorld : World :=
  afterOps [OpConfigure config720; OpAdd ytAcc1; OpAdd ytAcc2]
           (freshWorld apiAcc2Missing).

(** Streaming on both platforms. *)
Definition streamingWorld : World :=
  afterOps [OpStart settingsT] (readyWorld apiAllOk).

(** Streaming on both platforms, two seconds later, when YouTube has begun
    to refuse the end of the broadcast. *)
Definition streamingWorldEndFails : World :=
  setOutside 3100 (envOf apiYouTubeEndFails) streamingWorld.

(** A restart: the module loaded, at time 9000, over the store that
    [streamingWorld] left behind. *)
Definition restartedWorld : World :=
  moduleLoad (store streamingWorld) 9000 (envOf apiAllOk).

(** An account store in which the list of YouTube accounts, still empty,
    has been read (and cached) at time 1000. *)
Definition account1 : StateManager.Account :=
  StateManager.mkAccount "id1" StateManager.youtube "token" "refresh" 99 None.

Definition listedManager : StateManager.Manager :=
  snd (StateManager.getAccountsByPlatform StateManager.youtube
         (StateManager.emptyManager 1000)).

(** One second after [account1] was saved in it. *)
Definition savedManager : StateManager.Manager :=
  StateManager.advance 1000 (snd (StateManager.saveAccount account1 listedManager)).

End Scenario.

(** * Further vocabulary and scenarios *)

Module RelayInvariants.
Import Relay.

(** No two records of the registry share an identity, in memory and in the
    list last persisted under [stream_destinations]. *)
Definition registryInv (w : World) : Prop :=
  uniqueIdentities (destinations w) /\
  forall ds, store w !! "stream_destinations" = Some (SvDestinations ds) ->
             uniqueIdentities ds.

End RelayInvariants.

Module StoreFaults.
Import StateManager.

(** The backend of the account store going down ([Some msg]) or coming back
    ([None]) between two calls. *)
Definition withKvError (f : option string) (m : Manager) : Manager :=
  mkManager (kv m) f (cache m) (cacheExpiry m) (now m).

(** Reading one character back from the front of escaped text: [None] on a
    bare quote, on a bare control character and on a malformed escape. *)
Definition hexValue (c : Ascii.ascii) : option nat :=
  let n := Ascii.nat_of_ascii c in
  if ((48 <=? n) && (n <=? 57))%nat then Some (n - 48)%nat
  else if ((97 <=? n) && (n <=? 102))%nat then Some (n - 87)%nat
  else None.

Definition unescapeHead (s : string) : option (Ascii.ascii * string) :=
  match s with
  | EmptyString => None
  | String c rest =>
      let n := Ascii.nat_of_ascii c in
      if (n =? 34)%nat || (n <? 32)%nat then None
      else if (n =? 92)%nat then
        match rest with
        | EmptyString => None
        | String x rest1 =>
            let m := Ascii.nat_of_ascii x in
            if (m =? 98)%nat then Some (Ascii.ascii_of_nat 8, rest1)
            else if (m =? 116)%nat then Some (Ascii.ascii_of_nat 9, rest1)
            else if (m =? 110)%nat then Some (Ascii.ascii_of_nat 10, rest1)
            else if (m =? 102)%nat then Some (Ascii.ascii_of_nat 12, rest1)
            else if (m =? 114)%nat then Some (Ascii.ascii_of_nat 13, rest1)
            else if (m =? 34)%nat then Some (Ascii.ascii_of_nat 34, rest1)
            else if (m =? 92)%nat then Some (Ascii.ascii_of_nat 92, rest1)
            else if (m =? 117)%nat then
              match rest1 with
              | String _ (String _ (String h1 (String h2 rest2))) =>
                  match hexValue h1, hexValue h2 with
                  | Some a, Some b => Some (Ascii.ascii_of_nat (16 * a + b), rest2)
                  | _, _ => None
                  end
              | _ => None
              end
            else None
        end
      else Some (c, rest)
  end.

(** The accounts stored below a prefix, in key order. *)
Definition storedUnder (prefix : KvKey) (l : list (KvKey * Account))
    : list Account :=
  List.map snd (List.filter (fun e => properPrefix prefix (fst e)) l).

End StoreFaults.

Module Cases.
Import Relay Scenario.

(** The store refuses to write the status; everything else works. *)
Definition envStatusWriteFails : Env :=
  mkEnv apiAllOk
        (fun op => match op with
                   | KvSet key => if String.eqb key "stream_status"
                                  then Some "disk full" else None
                   | KvGet _ => None
                   end)
        5 42.

(** Configured with two enabled destinations, at a moment when the status
    can no longer be written. *)
Definition statusWriteFailsWorld : World :=
  setOutside 2000 envStatusWriteFails (readyWorld apiAllOk).



(** A second account, on LinkedIn. *)
Definition account2 : StateManager.Account :=
  StateManager.mkAccount "id2" StateManager.linkedin "token2" "refresh2" 77 None.

(** A manager holding [account1], nothing cached. *)
Definition oneAccountManager : StateManager.Manager :=
  snd (StateManager.saveAccount account1 (StateManager.emptyManager 1000)).

End Cases.

(** * Scheduled events ([state_manager.ts])

    The scheduled-event methods of the [StateManager] class, over the part
    of the store below [scheduled_events] and the cache entries these
    methods write.  A [Date] is its time value in milliseconds; the
    [settings] map of an event, which no method reads, is left out. *)

Module Events.

Abbreviation KvKey := (list string).

Definition SCHEDULED_EVENTS_PREFIX : KvKey := ["scheduled_events"].

Inductive EventStatus : Type := scheduled | live | completed | canceled.

Definition isScheduled (s : EventStatus) : bool :=
  match s with
  | scheduled => true
  | _ => false
  end.

Record ScheduledEvent : Type := mkEvent {
  id : string;
  title : string;
  description : string;
  platforms : list StateManager.Platform;
  scheduledStartTime : Z;
  scheduledEndTime : option Z;
  status : EventStatus
}.

Inductive CacheValue : Type :=
  | CvEvent (e : ScheduledEvent)
  | CvEvents (l : list ScheduledEvent).

Record Manager : Type := mkManager {
  kv : list (KvKey * ScheduledEvent);
  kvError : option string;
  cache : gmap string CacheValue;
  cacheExpiry : gmap string Z;
  now : Z
}.

Abbreviation SM := (Async Manager).

(** *** Deno KV, as for the accounts *)

Fixpoint kvInsert (k : KvKey) (v : ScheduledEvent)
    (l : list (KvKey * ScheduledEvent)) : list (KvKey * ScheduledEvent) :=
  match l with
  | [] => [(k, v)]
  | (k', v') :: rest =>
      match StateManager.keyCompare k k' with
      | Lt => (k, v) :: (k', v') :: rest
      | Eq => (k, v) :: rest
      | Gt => (k', v') :: kvInsert k v rest
      end
  end.

Fixpoint kvLookup (k : KvKey) (l : list (KvKey * ScheduledEvent))
    : option ScheduledEvent :=
  match l with
  | [] => None
  | (k', v') :: rest =>
      match StateManager.keyCompare k k' with
      | Eq => Some v'
      | _ => kvLookup k rest
      end
  end.

Definition kvRemove (k : KvKey) (l : list (KvKey * ScheduledEvent))
    : list (KvKey * ScheduledEvent) :=
  List.filter
    (fun e => match StateManager.keyCompare k (fst e) with Eq => false | _ => true end) l.

Definition backend {A} (f : Manager -> A * Manager) : SM A :=
  fun m =>
    match kvError m with
    | Some msg => (Rejected (JsError msg), m)
    | None => let (a, m') := f m in (Resolved a, m')
    end.

Definition setKv (l : list (KvKey * ScheduledEvent)) (m : Manager) : Manager :=
  mkManager l (kvError m) (cache m) (cacheExpiry m) (now m).

Definition kv_set (k : KvKey) (v : ScheduledEvent) : SM unit :=
  backend (fun m => (tt, setKv (kvInsert k v (kv m)) m)).

Definition kv_get (k : KvKey) : SM (option ScheduledEvent) :=
  backend (fun m => (kvLookup k (kv m), m)).

Definition kv_delete (k : KvKey) : SM unit :=
  backend (fun m => (tt, setKv (kvRemove k (kv m)) m)).

Definition kv_list (prefix : KvKey) : SM (list ScheduledEvent) :=
  backend (fun m =>
    (List.map snd
       (List.filter (fun e => StateManager.properPrefix prefix (fst e)) (kv m)), m)).

(** *** The cache *)

Definition setCache (c : gmap string CacheValue) (x : gmap string Z)
    (m : Manager) : Manager :=
  mkManager (kv m) (kvError m) c x (now m).

Definition getCachedValue (key : string) : SM (option CacheValue) :=
  fun m =>
    match cacheExpiry m !! key with
    | Some expiry =>
        if negb (expiry =? 0) && (now m <? expiry)
        then (Resolved (cache m !! key), m)
        else if negb (expiry =? 0)
        then (Resolved None,
              setCache (delete key (cache m)) (delete key (cacheExpiry m)) m)
        else (Resolved None, m)
    | None => (Resolved None, m)
    end.

Definition setCachedValue (key : string) (value : CacheValue) (ttl : Z)
    : SM unit :=
  modify (fun m =>
    setCache (<[key := value]> (cache m)) (<[key := now m + ttl]> (cacheExpiry m)) m).

Definition clearCacheKey (key : string) : SM unit :=
  modify (fun m => setCache (delete key (cache m)) (delete key (cacheExpiry m)) m).

(** [throw new Error(`<what>: ${errorMessage}`)] *)
Definition rethrow {A} (what : string) (e : Thrown) : SM A :=
  throw (JsError (what ++ ": " ++ errorMessage e)).

(** *** Arrays

    [Array.prototype.sort] is stable; under the comparator
    [a.scheduledStartTime.getTime() - b.scheduledStartTime.getTime()] an
    element goes before the first element that starts later. *)
Fixpoint insertByStart (x : ScheduledEvent) (l : list ScheduledEvent)
    : list ScheduledEvent :=
  match l with
  | [] => [x]
  | y :: rest =>
      if scheduledStartTime x <=? scheduledStartTime y
      then x :: y :: rest
      else y :: insertByStart x rest
  end.

Definition sortByStart (l : list ScheduledEvent) : list ScheduledEvent :=
  fold_right insertByStart [] l.

(** [Array.prototype.slice(start, end)] with integer arguments: a negative
    index counts from the end, and both are clamped to the array. *)
Definition slice {A} (start finish : Z) (l : list A) : list A :=
  let len := Z.of_nat (length l) in
  let rel := fun k => if k <? 0 then Z.max (len + k) 0 else Z.min k len in
  take (Z.to_nat (rel finish - rel start)) (drop (Z.to_nat (rel start)) l).

(** *** The event methods *)

Definition eventKey (ident : string) : KvKey := SCHEDULED_EVENTS_PREFIX ++ [ident].

Definition saveScheduledEvent (event : ScheduledEvent) : SM unit :=
  tryCatch
    (let key := eventKey (id event) in
     kv_set key event ;;
     clearCacheKey (StateManager.generateCacheKey key) ;;
     clearCacheKey (StateManager.generateCacheKey SCHEDULED_EVENTS_PREFIX))
    (rethrow "Failed to save scheduled event").

Definition getScheduledEvent (ident : string) : SM (option ScheduledEvent) :=
  tryCatch
    (let key := eventKey ident in
     let cacheKey := StateManager.generateCacheKey key in
     cachedEvent <- getCachedValue cacheKey ;;
     match cachedEvent with
     | Some (CvEvent e) => ret (Some e)
     | _ =>
         result <- kv_get key ;;
         match result with
         | Some e => setCachedValue cacheKey (CvEvent e)
                       StateManager.DEFAULT_CACHE_TTL ;;
                     ret (Some e)
         | None => ret None
         end
     end)
    (rethrow "Failed to get scheduled event").

Definition getAllScheduledEvents : SM (list ScheduledEvent) :=
  tryCatch
    (let cacheKey := StateManager.generateCacheKey SCHEDULED_EVENTS_PREFIX in
     cachedEvents <- getCachedValue cacheKey ;;
     match cachedEvents with
     | Some (CvEvents l) => ret l
     | _ =>
         events <- kv_list SCHEDULED_EVENTS_PREFIX ;;
         setCachedValue cacheKey (CvEvents events)
           StateManager.DEFAULT_CACHE_TTL ;;
         ret events
     end)
    (rethrow "Failed to get all scheduled events").

(** The events still to come: [limit] is [undefined] ([None]) or an integer;
    [limit ? ... : ...] takes [undefined] and [0] alike. *)
Definition upcoming (t : Z) (e : ScheduledEvent) : bool :=
  isScheduled (status e) && (t <? scheduledStartTime e).

Definition getUpcomingEvents (limit : option Z) : SM (list ScheduledEvent) :=
  tryCatch
    (allEvents <- getAllScheduledEvents ;;
     t <- gets now ;;
     let upcomingEvents := sortByStart (List.filter (upcoming t) allEvents) in
     ret (match limit with
          | Some n => if n =? 0 then upcomingEvents else slice 0 n upcomingEvents
          | None => upcomingEvents
          end))
    (rethrow "Failed to get upcoming events").

Definition deleteScheduledEvent (ident : string) : SM unit :=
  tryCatch
    (let key := eventKey ident in
     kv_delete key ;;
     clearCacheKey (StateManager.generateCacheKey key) ;;
     clearCacheKey (StateManager.generateCacheKey SCHEDULED_EVENTS_PREFIX))
    (rethrow "Failed to delete scheduled event").

(** *** Vocabulary of the statements *)

(** Ordered by start time. *)
Definition byStart (a b : ScheduledEvent) : Prop :=
  scheduledStartTime a <= scheduledStartTime b.

(** [limit ? l.slice(0, limit) : l] *)
Definition limited (limit : option Z) (l : list ScheduledEvent)
    : list ScheduledEvent :=
  match limit with
  | Some n => if n =? 0 then l else slice 0 n l
  | None => l
  end.

(** Time passing between two calls, and a fresh manager. *)
Definition advance (dt : Z) (m : Manager) : Manager :=
  mkManager (kv m) (kvError m) (cache m) (cacheExpiry m) (now m + dt).

Definition emptyManager (t : Z) : Manager := mkManager [] None ∅ ∅ t.

(** *** A programme of three events *)

Definition keynote : ScheduledEvent :=
  mkEvent "e1" "Keynote" "Opening" [StateManager.youtube] 5000 None scheduled.

Definition workshop : ScheduledEvent :=
  mkEvent "e2" "Workshop" "Hands-on" [StateManager.linkedin] 3000 (Some 4000)
          scheduled.

Definition retrospective : ScheduledEvent :=
  mkEvent "e3" "Retrospective" "Closing" [] 9000 None canceled.

Definition programme : Manager :=
  snd (saveScheduledEvent retrospective
         (snd (saveScheduledEvent workshop
                 (snd (saveScheduledEvent keynote (emptyManager 1000)))))).

Definition backendDown (msg : string) (m : Manager) : Manager :=
  mkManager (kv m) (Some msg) (cache m) (cacheExpiry m) (now m).

End Events.

(** * The LinkedIn client ([linkedin_api.ts], [linkedin_api_client.ts])

    The URN classes, the exception of the API module, the two requests the
    client sends, and the client created for an account, which looks the
    account up in the account store before every request. *)

Module LinkedIn.

(** [s.replace(pattern, replacement)] with a string pattern, whose first
    occurrence alone is replaced, and a replacement without [$];
    [s.startsWith(p)] is [String.prefix p s]. *)
Fixpoint replace (pattern replacement s : string) : string :=
  if String.prefix pattern s
  then replacement ++
       String.substring (String.length pattern)
         (String.length s - String.length pattern)%nat s
  else match s with
       | EmptyString => EmptyString
       | String c rest => String c (replace pattern replacement rest)
       end.

(** The four URN classes differ in their prefix only. *)
Inductive UrnClass : Type :=
  | PersonUrn
  | OrganizationUrn
  | LiveVideoUrn
  | ScheduledLiveEventUrn.

Definition urnPrefix (c : UrnClass) : string :=
  match c with
  | PersonUrn => "urn:li:person:"
  | OrganizationUrn => "urn:li:organization:"
  | LiveVideoUrn => "urn:li:liveVideo:"
  | ScheduledLiveEventUrn => "urn:li:scheduledLiveEvent:"
  end.

Record Urn : Type := mkUrn {
  urnClass : UrnClass;
  urnId : string
}.

(** The constructor: [new PersonUrn(id)] and its siblings. *)
Definition newUrn (c : UrnClass) (ident : string) : Urn :=
  if String.prefix (urnPrefix c) ident
  then mkUrn c (replace (urnPrefix c) "" ident)
  else mkUrn c ident.

Definition toString (u : Urn) : string := urnPrefix (urnClass u) ++ urnId u.

(** The error body of a response that is not OK, and the message
    [LinkedInApiException] passes to [Error]:
    [error.message || error.serviceErrorMessage || 'LinkedIn API Error']. *)
Record LinkedInApiError : Type := mkApiError {
  status : option Z;
  code : option string;
  message : option string;
  serviceErrorCode : option Z;
  serviceErrorMessage : option string
}.

(** [a || b] on an optional string property. *)
Definition orElse (a : option string) (b : string) : string :=
  match a with
  | Some s => if truthy s then s else b
  | None => b
  end.

Definition exceptionMessage (error : LinkedInApiError) : string :=
  orElse (message error)
    (orElse (serviceErrorMessage error) "LinkedIn API Error").

(** *** Requests *)

Inductive Transition : Type := READY | PUBLISHED | ENDED.

Inductive LiveVisibility : Type := PUBLIC | CONNECTIONS.

(** [POST /liveVideos] and [POST /liveVideos/<urn>?action=transition], with
    the bearer token of the [Authorization] header. *)
Inductive Request : Type :=
  | RegisterLiveVideo (accessToken owner title description : string)
      (visibility : LiveVisibility)
  | TransitionLiveVideo (accessToken liveVideoUrn : string)
      (transition : Transition).

(** What [fetch] and the reading of the body come to: an exception (the
    network, a body that is not JSON), a response that is not OK with its
    error body, or the [id] of the live video of an OK response. *)
Inductive Response : Type :=
  | FetchThrows (e : Thrown)
  | NotOk (error : LinkedInApiError)
  | Ok (ident : string).

(** The account store, the requests sent so far (oldest first) and the
    remote end. *)
Record Net : Type := mkNet {
  manager : StateManager.Manager;
  requests : list Request;
  fetch : Request -> Response
}.

Abbreviation L := (Async Net).

(** One request of the API module: a [LinkedInApiException] goes through the
    [catch] as it is, anything else is wrapped. *)
Definition send (what : string) (r : Request) : L string :=
  fun s =>
    let s' := mkNet (manager s) (requests s ++ [r]) (fetch s) in
    match fetch s r with
    | Ok ident => (Resolved ident, s')
    | NotOk error => (Rejected (JsError (exceptionMessage error)), s')
    | FetchThrows e => (Rejected (JsError (what ++ ": " ++ errorMessage e)), s')
    end.

Definition registerLiveEvent (accessToken owner title description : string)
    (visibility : LiveVisibility) : L string :=
  send "Failed to register LinkedIn live event"
       (RegisterLiveVideo accessToken owner title description visibility).

Definition transitionLiveEvent (accessToken : string) (liveVideoUrn : Urn)
    (transition : Transition) : L string :=
  send "Failed to transition LinkedIn live event"
       (TransitionLiveVideo accessToken (toString liveVideoUrn) transition).

(** *** The client of an account *)

Definition getAccount (accountId : string) : L (option StateManager.Account) :=
  fun s =>
    let (r, m') := StateManager.getAccount StateManager.linkedin accountId
                     (manager s) in
    (r, mkNet m' (requests s) (fetch s)).

Definition notFound (accountId : string) : Thrown :=
  JsError ("LinkedIn account " ++ accountId ++ " not found").

Definition createLiveEvent (accountId title description visibility : string)
    : L string :=
  tryCatch
    (account <- getAccount accountId ;;
     match account with
     | None => throw (notFound accountId)
     | Some a =>
         let ownerUrn := newUrn PersonUrn (StateManager.id a) in
         registerLiveEvent (StateManager.accessToken a) (toString ownerUrn)
           title description
           (if String.eqb visibility "public" then PUBLIC else CONNECTIONS)
     end)
    (fun error => throw error).

Definition startLiveEvent (accountId eventId : string) : L unit :=
  tryCatch
    (account <- getAccount accountId ;;
     match account with
     | None => throw (notFound accountId)
     | Some a =>
         let liveVideoUrn := newUrn LiveVideoUrn eventId in
         transitionLiveEvent (StateManager.accessToken a) liveVideoUrn READY ;;
         transitionLiveEvent (StateManager.accessToken a) liveVideoUrn PUBLISHED ;;
         ret tt
     end)
    (fun error => throw error).

Definition endLiveEvent (accountId eventId : string) : L unit :=
  tryCatch
    (account <- getAccount accountId ;;
     match account with
     | None => throw (notFound accountId)
     | Some a =>
         let liveVideoUrn := newUrn LiveVideoUrn eventId in
         transitionLiveEvent (StateManager.accessToken a) liveVideoUrn ENDED ;;
         ret tt
     end)
    (fun error => throw error).

(** An [Error] whose message is not empty. *)
Definition carriesMessage (e : Thrown) : Prop :=
  exists msg, e = JsError msg /\ msg <> "".

(** *** A member and two remote ends *)

Definition member : StateManager.Account :=
  StateManager.mkAccount "urn:li:person:abc" StateManager.linkedin "tok" "ref" 99
    None.

Definition memberStore : StateManager.Manager :=
  snd (StateManager.saveAccount member (StateManager.emptyManager 1000)).

Definition remoteOk (r : Request) : Response := Ok "urn:li:liveVideo:42".

(** The remote end refuses to publish. *)
Definition remoteNoPublish (r : Request) : Response :=
  match r with
  | TransitionLiveVideo _ _ PUBLISHED =>
      NotOk (mkApiError (Some 403) None (Some "") None (Some "Not allowed"))
  | _ => Ok "urn:li:liveVideo:42"
  end.

(** The client's world with the member's account stored, and with no
    account at all. *)
Definition memberNet (f : Request -> Response) : Net := mkNet memberStore [] f.

Definition strangerNet : Net :=
  mkNet (StateManager.emptyManager 1000) [] remoteOk.

End LinkedIn.

(** * The start of the module ([relay_controller.ts], last statement)

    [initialize().catch(console.error)] is not awaited.  While the module is
    loaded [initialize] runs up to its first [await]; it is resumed later,
    each time the store operation it awaits has settled, and runs from
    there to the next [await] or to its end.  Whatever calls the importing
    module makes meanwhile find the controller as [initialize] has left it
    so far. *)

Module Startup.
Import Relay.

(** Where [initialize] is suspended: at the read of the configuration, of
    the destinations or of the status, at the write of the corrected status
    ([savedStatus], already marked inactive), or nowhere any more. *)
Inductive InitPoint : Type :=
  | AtConfig
  | AtDestinations
  | AtStatus
  | AtSave (savedStatus : RelayStatus)
  | Finished.

(** The awaited store operation settles and [initialize] runs on.  A
    rejected operation throws into the inner [catch], which ends
    [initialize]. *)
Definition resume (pt : InitPoint) (w : World) : InitPoint * World :=
  match pt with
  | AtConfig =>
      match getData "relay_config" w with
      | (Resolved savedConfig, w1) =>
          (AtDestinations,
           match savedConfig with
           | Some (SvConfig c) => setConfig (Some c) w1
           | _ => w1
           end)
      | (Rejected _, w1) => (Finished, w1)
      end
  | AtDestinations =>
      match getData "stream_destinations" w with
      | (Resolved savedDestinations, w1) =>
          (AtStatus,
           match savedDestinations with
           | Some (SvDestinations ds) => setDestinations ds w1
           | _ => w1
           end)
      | (Rejected _, w1) => (Finished, w1)
      end
  | AtStatus =>
      match getData "stream_status" w with
      | (Resolved savedStatus, w1) =>
          match savedStatus with
          | Some (SvStatus s) =>
              if isActive s
              then (AtSave (withError interruptedMessage (withActive false s)), w1)
              else (Finished, setStatus s w1)
          | _ => (Finished, w1)
          end
      | (Rejected _, w1) => (Finished, w1)
      end
  | AtSave savedStatus =>
      match saveData "stream_status" (SvStatus savedStatus) w with
      | (Resolved _, w1) => (Finished, setStatus savedStatus w1)
      | (Rejected _, w1) => (Finished, w1)
      end
  | Finished => (Finished, w)
  end.

(** [initialize] resumed [n] times in a row. *)
Fixpoint resumeN (n : nat) (st : InitPoint * World) : InitPoint * World :=
  match n with
  | O => st
  | S k => resumeN k (resume (fst st) (snd st))
  end.

(** The controller when the importing module gets to run: loaded, with
    [initialize] suspended at its first [await]. *)
Definition loaded (persisted : gmap string StoredValue) (now : Z) (e : Env)
    : InitPoint * World :=
  (AtConfig, moduleLoad persisted now e).

End Startup.

(** * The standalone controller ([relay_controller_standalone.ts])

    The sibling of the relay controller that keeps no store and talks to
    mock clients.  It shares the types and the module-level variables of
    the controller; the store and the answers of the environment play no
    part.  The removal and the stopping paths, where the two differ, are
    embedded. *)

Module Standalone.
Import Relay.

(** A method of a mock client: it logs and resolves. *)
Definition mockCall (c : ApiCall) : M unit :=
  fun w => (Resolved tt, elapse (logCall c w)).

(** One branch of [stopPlatformStream]: without a destination to stop, the
    status alone is updated. *)
Definition stopBranch (p : StreamPlatform) (account : option string) : M unit :=
  ds <- gets destinations ;;
  match find (matchesStop p account) ds with
  | None => modify (updStatus (withPlatform p stoppedStatus))
  | Some d =>
      st <- gets currentStatus ;;
      match platformStreamId p st with
      | Some id => if truthy id
                   then mockCall (endCall p (accountId d) id)
                   else ret tt
      | None => ret tt
      end ;;
      modify (updStatus (withPlatform p stoppedStatus))
  end.

Definition stopPlatformStream (p : StreamPlatform) (account : option string)
    : M unit :=
  tryCatch
    (st <- gets currentStatus ;;
     match p with
     | youtube => when (platformStreaming youtube st) (stopBranch youtube account)
     | linkedin => when (platformStreaming linkedin st) (stopBranch linkedin account)
     end ;;
     ret tt)
    (fun e => throw e).

Definition removeDestination (p : StreamPlatform) (account : string) : M unit :=
  tryCatch
    (before <- gets destinations ;;
     let initialCount := length before in
     modify (fun w => setDestinations
               (List.filter (fun d => negb (sameIdentity p account d)) (destinations w)) w) ;;
     ds <- gets destinations ;;
     if Nat.eqb (length ds) initialCount then ret tt
     else
       st <- gets currentStatus ;;
       when (isActive st && bool_decide (is_Some (getPlatform p (platforms st))))
         (match p with
          | youtube =>
              when (truthyOpt (platformStreamId youtube st))
                   (modify (updStatus (withPlatform youtube stoppedStatus)))
          | linkedin =>
              when (truthyOpt (platformStreamId linkedin st))
                   (modify (updStatus (withPlatform linkedin stoppedStatus)))
          end) ;;
       ret tt)
    (fun e => throw e).

Definition stopStream : M unit :=
  tryCatch
    (st <- gets currentStatus ;;
     if negb (isActive st) then ret tt
     else
       when (platformStreaming youtube st) (stopPlatformStream youtube None) ;;
       st1 <- gets currentStatus ;;
       when (platformStreaming linkedin st1) (stopPlatformStream linkedin None) ;;
       modify (updStatus (withActive false)) ;;
       modify (setProcessId None) ;;
       st2 <- gets currentStatus ;;
       match startedAt st2 with
       | Some t0 =>
           endTime <- gets clock ;;
           modify (updStatus (withDuration ((endTime - t0) / 1000)))
       | None => ret tt
       end ;;
       ret tt)
    (fun e => throw e).

End Standalone.

(** * Properties of the relay controller *)

Module RelayFacts.
Import Relay.

Lemma sameOutsidePlatforms_refl w : sameOutsidePlatforms w w.
Proof. repeat split. Qed.

Lemma sameOutsidePlatforms_trans w1 w2 w3 :
  sameOutsidePlatforms w1 w2 -> sameOutsidePlatforms w2 w3 ->
  sameOutsidePlatforms w1 w3.
Proof.
  unfold sameOutsidePlatforms. intros H12 H23.
  destruct H12 as (?&?&?&?&?&?&?&?&?&?), H23 as (?&?&?&?&?&?&?&?&?&?).
  repeat split; congruence.
Qed.

Ltac run_async :=
  unfold tryCatch, bind, ret, throw, gets, modify, when, callApi, updStatus;
  cbn.

(** Closed statements about the scenarios are settled by evaluation. *)
Ltac evaluate :=
  cbv zeta; repeat match goal with |- _ /\ _ => split end;
  vm_compute; reflexivity.

Ltac close_start l :=
  eexists _, l, _; repeat split; cbn; eauto;
  try (by rewrite <- ?app_assoc); try discriminate; repeat constructor.

Lemma startPlatform_spec settings d w :
  exists ps calls w',
    startPlatform settings d w = (startSettles settings d w, w') /\
    sameOutsidePlatforms w w' /\
    platforms (currentStatus w') =
      setPlatform (platform d) ps (platforms (currentStatus w)) /\
    entryOf settings d w ps /\
    apiLog w' = apiLog w ++ calls /\
    calls <> [] /\
    Forall (startCallOf d) calls.
Proof.
  unfold entryOf, startSettles, createCall, startPlatform.
  destruct d as [p a en sk ru]; destruct p; cbn [platform accountId].
  - unfold startYouTubeStream; run_async.
    destruct (api (env w) (YtCreateBroadcast a _ _ _ _ _)) as [bid|e1] eqn:E1; cbn;
      [|close_start constr:([YtCreateBroadcast a (title settings) (description settings)
          (scheduledStartTime settings) (scheduledEndTime settings) (visibility settings)])].
    destruct (api (env w) (YtCreateStream a _ _ _)) as [sid|e2] eqn:E2; cbn;
      [|close_start uconstr:([_; _])].
    destruct (api (env w) (YtBindStreamToBroadcast a bid sid)) as [?|e3] eqn:E3; cbn;
      [|close_start uconstr:([_; _; _])].
    destruct (api (env w) (YtStartBroadcast a bid)) as [?|e4] eqn:E4; cbn;
      close_start uconstr:([_; _; _; _]).
  - unfold startLinkedInStream; run_async.
    destruct (api (env w) (LiCreateLiveEvent a _ _ _)) as [eid|e1] eqn:E1; cbn;
      [|close_start uconstr:([_])].
    destruct (api (env w) (LiStartLiveEvent a eid)) as [?|e2] eqn:E2; cbn;
      close_start uconstr:([_; _]).
Qed.

(** The settlement of a start sequence depends on the world only through
    the environment and the configuration. *)
Lemma startSettles_indep settings d w1 w2 :
  env w1 = env w2 -> currentConfig w1 = currentConfig w2 ->
  startSettles settings d w1 = startSettles settings d w2.
Proof.
  intros He Hc. unfold startSettles, startPlatform.
  destruct d as [p a en sk ru]; destruct p; cbn [platform accountId].
  - unfold startYouTubeStream; run_async. rewrite <- He, <- Hc.
    destruct (api (env w1) (YtCreateBroadcast a _ _ _ _ _)) as [bid|e1]; cbn; [|done].
    destruct (api (env w1) (YtCreateStream a _ _ _)) as [sid|e2]; cbn; [|done].
    destruct (api (env w1) (YtBindStreamToBroadcast a bid sid)) as [?|e3]; cbn; [|done].
    destruct (api (env w1) (YtStartBroadcast a bid)) as [?|e4]; cbn; done.
  - unfold startLinkedInStream; run_async. rewrite <- He.
    destruct (api (env w1) (LiCreateLiveEvent a _ _ _)) as [eid|e1]; cbn; [|done].
    destruct (api (env w1) (LiStartLiveEvent a eid)) as [?|e2]; cbn; done.
Qed.

(** [startSettles] in terms of the answers of the platform client: the
    sequence succeeds when every call of it resolves, and fails with the
    exception of the first call that rejects. *)
Lemma startSettles_youtube settings d w :
  platform d = youtube ->
  startSettles settings d w =
    match api (env w) (createCall settings d) with
    | Rejected e => Rejected e
    | Resolved broadcast =>
        match api (env w) (YtCreateStream (accountId d) (title settings)
                             (configResolution (currentConfig w))
                             (configFrameRate (currentConfig w))) with
        | Rejected e => Rejected e
        | Resolved stream =>
            match api (env w) (YtBindStreamToBroadcast (accountId d) broadcast stream) with
            | Rejected e => Rejected e
            | Resolved _ =>
                match api (env w) (YtStartBroadcast (accountId d) broadcast) with
                | Rejected e => Rejected e
                | Resolved _ => Resolved tt
                end
            end
        end
    end.
Proof.
  intros Hp. unfold startSettles, startPlatform, createCall. rewrite Hp.
  unfold startYouTubeStream; run_async.
  destruct (api (env w) (YtCreateBroadcast _ _ _ _ _ _)) as [bid|e1]; cbn; [|done].
  destruct (api (env w) (YtCreateStream _ _ _ _)) as [sid|e2]; cbn; [|done].
  destruct (api (env w) (YtBindStreamToBroadcast _ bid sid)) as [?|e3]; cbn; [|done].
  by destruct (api (env w) (YtStartBroadcast _ bid)) as [?|e4].
Qed.

Lemma startSettles_linkedin settings d w :
  platform d = linkedin ->
  startSettles settings d w =
    match api (env w) (createCall settings d) with
    | Rejected e => Rejected e
    | Resolved liveEvent =>
        match api (env w) (LiStartLiveEvent (accountId d) liveEvent) with
        | Rejected e => Rejected e
        | Resolved _ => Resolved tt
        end
    end.
Proof.
  intros Hp. unfold startSettles, startPlatform, createCall. rewrite Hp.
  unfold startLinkedInStream; run_async.
  destruct (api (env w) (LiCreateLiveEvent _ _ _ _)) as [eid|e1]; cbn; [|done].
  by destruct (api (env w) (LiStartLiveEvent _ eid)) as [?|e2].
Qed.

Lemma entryOf_indep settings d w1 w2 ps :
  env w1 = env w2 -> currentConfig w1 = currentConfig w2 ->
  entryOf settings d w1 ps -> entryOf settings d w2 ps.
Proof.
  intros He Hc. unfold entryOf.
  by rewrite (startSettles_indep settings d w1 w2 He Hc), He.
Qed.

Lemma setPlatform_twice p a b pf :
  setPlatform p a (setPlatform p b pf) = setPlatform p a pf.
Proof. by destruct p. Qed.

Lemma getPlatform_set_eq p a pf : getPlatform p (setPlatform p a pf) = Some a.
Proof. by destruct p. Qed.

Lemma getPlatform_set_ne p q a pf :
  p <> q -> getPlatform q (setPlatform p a pf) = getPlatform q pf.
Proof. by destruct p, q. Qed.

(** The loop body never rejects: it leaves in the slot of the destination's
    platform the entry of its start sequence, and touches no other slot. *)
Lemma startDestination_spec settings d w :
  exists ps calls w',
    startDestination settings d w = (Resolved tt, w') /\
    sameOutsidePlatforms w w' /\
    platforms (currentStatus w') =
      setPlatform (platform d) ps (platforms (currentStatus w)) /\
    entryOf settings d w ps /\
    apiLog w' = apiLog w ++ calls /\
    calls <> [] /\
    Forall (startCallOf d) calls.
Proof.
  destruct (startPlatform_spec settings d w)
    as (ps & calls & w' & Hrun & Hsame & Hpf & Hentry & Hlog & Hne & Hcalls).
  unfold startDestination, tryCatch. rewrite Hrun.
  unfold entryOf in *.
  destruct (startSettles settings d w) as [[]|e] eqn:Hs.
  - by exists ps, calls, w'.
  - subst ps. exists (failedStatus (errorMessage e)), calls.
    eexists. split; [reflexivity|]. cbn.
    rewrite Hpf, setPlatform_twice.
    destruct Hsame as (?&?&?&?&?&?&?&?&?&?).
    repeat split; auto.
Qed.

(** The fan-out loop of [startStream] over a list of destinations. *)
Lemma startLoop_spec settings l : forall w,
  exists calls w',
    forEach l (startDestination settings) w = (Resolved tt, w') /\
    sameOutsidePlatforms w w' /\
    apiLog w' = apiLog w ++ calls /\
    Forall (fun c => exists d, d ∈ l /\ startCallOf d c) calls /\
    (forall p, (forall d, d ∈ l -> platform d <> p) ->
       getPlatform p (platforms (currentStatus w')) =
       getPlatform p (platforms (currentStatus w))) /\
    (forall l1 d l2, l = l1 ++ d :: l2 ->
       (forall x, x ∈ l2 -> platform x <> platform d) ->
       exists ps, getPlatform (platform d) (platforms (currentStatus w')) = Some ps /\
                  entryOf settings d w ps).
Proof.
  induction l as [|d0 rest IH]; intros w.
  - exists [], w. cbn. repeat split; auto using sameOutsidePlatforms_refl.
    + by rewrite app_nil_r.
    + intros [|? ?] d l2 Heq; discriminate.
  - destruct (startDestination_spec settings d0 w)
      as (ps0 & calls0 & w1 & Hrun0 & Hsame0 & Hpf0 & Hentry0 & Hlog0 & _ & Hcalls0).
    destruct (IH w1) as (calls & w' & Hrun & Hsame & Hlog & Hcalls & Hkeep & Hlast).
    exists (calls0 ++ calls), w'.
    cbn [forEach]. unfold bind. rewrite Hrun0, Hrun.
    split; [reflexivity|].
    split; [eauto using sameOutsidePlatforms_trans|].
    split; [by rewrite Hlog, Hlog0, app_assoc|].
    split.
    { apply Forall_app. split.
      - eapply Forall_impl; [exact Hcalls0|]. intros c Hc. exists d0.
        split; [left|done].
      - eapply Forall_impl; [exact Hcalls|]. intros c (d & Hd & Hc). exists d.
        split; [by right|done]. }
    split.
    { intros p Hp. rewrite Hkeep.
      - rewrite Hpf0. apply getPlatform_set_ne. apply Hp. left.
      - intros d Hd. apply Hp. by right. }
    intros l1 d l2 Heq Hl2.
    assert (He : env w = env w1 /\ currentConfig w = currentConfig w1).
    { destruct Hsame0 as (?&?&?&?&?&_). by split. }
    destruct He as [He Hc].
    destruct l1 as [|x l1]; cbn in Heq; injection Heq as -> ->.
    + exists ps0. split; [|done].
      rewrite Hkeep by done. rewrite Hpf0. apply getPlatform_set_eq.
    + destruct (Hlast l1 d l2 eq_refl Hl2) as (ps & Hget & Hentry).
      exists ps. split; [done|].
      eapply entryOf_indep; [symmetry; exact He | symmetry; exact Hc | done].
Qed.

(** ** [startStream] *)

(** An accepted call: the loop runs from [startedWorld], then the process
    number is drawn and the status persisted; a store that refuses the write
    makes the call reject, through the outer [catch]. *)
Lemma startStream_accepted settings w cfg wl :
  isActive (currentStatus w) = false ->
  currentConfig w = Some cfg ->
  destinations w <> [] ->
  forEach (List.filter enabled (destinations w)) (startDestination settings)
          (startedWorld w) = (Resolved tt, wl) ->
  startStream settings w =
    let wp := setProcessId (Some (randomPid (env wl))) wl in
    match kvFault (env wl) (KvSet "stream_status") with
    | None =>
        (Resolved tt,
         elapse (setStore (<["stream_status" := SvStatus (currentStatus wl)]> (store wl)) wp))
    | Some msg =>
        let e := JsError ("Failed to save data with key " ++ dquote
                            ++ "stream_status" ++ dquote ++ ": " ++ msg) in
        (Rejected e,
         updStatus (withError (errorMessage e))
           (updStatus (withActive false) (elapse wp)))
    end.
Proof.
  intros Hact Hcfg Hds Hloop.
  unfold startStream, tryCatch at 1, bind at 1, gets at 1.
  rewrite Hact. unfold bind at 1, gets at 1. rewrite Hcfg.
  unfold bind at 1, gets at 1.
  destruct (destinations w) as [|d0 ds] eqn:Hd; [done|].
  cbn [length Nat.eqb].
  unfold bind at 1, gets at 1. unfold bind at 1, modify at 1.
  unfold bind at 1, gets at 1.
  change (setStatus _ w) with (startedWorld w).
  replace (destinations (startedWorld w)) with (d0 :: ds) by (by rewrite <- Hd).
  unfold bind at 1. rewrite Hloop.
  unfold saveData; run_async.
  by destruct (kvFault (env wl) (KvSet "stream_status")).
Qed.




(** The three early exits of [startStream]. *)
Lemma startStream_alreadyActive settings w :
  isActive (currentStatus w) = true ->
  startStream settings w = (Resolved tt, w).
Proof.
  intros Hact. unfold startStream, tryCatch, bind at 1, gets at 1.
  by rewrite Hact.
Qed.

Lemma startStream_notConfigured settings w :
  isActive (currentStatus w) = false ->
  currentConfig w = None ->
  startStream settings w =
    (Rejected (JsError notConfiguredMessage),
     setStatus (withError notConfiguredMessage (withActive false (currentStatus w))) w).
Proof.
  intros Hact Hcfg. unfold startStream, tryCatch, bind at 1, gets at 1.
  rewrite Hact. unfold bind at 1, gets at 1. by rewrite Hcfg.
Qed.

Lemma startStream_noDestinations settings w cfg :
  isActive (currentStatus w) = false ->
  currentConfig w = Some cfg ->
  destinations w = [] ->
  startStream settings w =
    (Rejected (JsError noDestinationsMessage),
     setStatus (withError noDestinationsMessage (withActive false (currentStatus w))) w).
Proof.
  intros Hact Hcfg Hds. unfold startStream, tryCatch, bind at 1, gets at 1.
  rewrite Hact. unfold bind at 1, gets at 1. rewrite Hcfg.
  unfold bind at 1, gets at 1. by rewrite Hds.
Qed.

(** ** What each operation leaves untouched *)

Ltac split_matches :=
  repeat (cbn;
          match goal with
          | |- context [match ?x with _ => _ end] =>
              lazymatch x with
              | context [match _ with _ => _ end] => fail
              | _ => destruct x eqn:?
              end
          end).

Lemma stopPlatformStream_frame p account w :
  sameOutsidePlatforms w (snd (stopPlatformStream p account w)) /\
  (forall q, q <> p ->
     getPlatform q (platforms (currentStatus (snd (stopPlatformStream p account w)))) =
     getPlatform q (platforms (currentStatus w))).
Proof.
  unfold stopPlatformStream, stopBranch, sameOutsidePlatforms.
  destruct p; run_async; split_matches; simplify_eq; cbn;
    (split; [by repeat split | intros [] Hq; done]).
Qed.

Lemma configureRelay_frame config w :
  currentStatus (snd (configureRelay config w)) = currentStatus w /\
  destinations (snd (configureRelay config w)) = destinations w /\
  (currentConfig (snd (configureRelay config w)) = currentConfig w \/
   currentConfig (snd (configureRelay config w)) = Some config).
Proof.
  unfold configureRelay, saveData; run_async; split_matches; cbn; auto.
Qed.

Lemma addDestination_frame d w :
  currentStatus (snd (addDestination d w)) = currentStatus w /\
  currentConfig (snd (addDestination d w)) = currentConfig w /\
  destinations (snd (addDestination d w)) = upsertDestination d (destinations w).
Proof.
  unfold addDestination, saveData; run_async; split_matches; cbn; auto.
Qed.

Lemma removeDestination_frame p account w :
  currentConfig (snd (removeDestination p account w)) = currentConfig w /\
  isActive (currentStatus (snd (removeDestination p account w))) =
    isActive (currentStatus w) /\
  destinations (snd (removeDestination p account w)) =
    List.filter (fun d => negb (sameIdentity p account d)) (destinations w) /\
  (forall q, q <> p ->
     getPlatform q (platforms (currentStatus (snd (removeDestination p account w)))) =
     getPlatform q (platforms (currentStatus w))).
Proof.
  unfold removeDestination, saveData, stopPlatformStream, stopBranch.
  destruct p; run_async; split_matches; simplify_eq; cbn;
    (repeat split; auto; intros [] Hq; done).
Qed.

Lemma stopStream_frame w :
  currentConfig (snd (stopStream w)) = currentConfig w /\
  destinations (snd (stopStream w)) = destinations w /\
  (isActive (currentStatus (snd (stopStream w))) = true ->
   isActive (currentStatus w) = true).
Proof.
  unfold stopStream, saveData, stopPlatformStream, stopBranch.
  run_async; split_matches; simplify_eq; cbn in *; repeat split; auto;
    try discriminate; try congruence.
Qed.

Lemma initialize_frame w :
  (currentConfig (snd (initialize w)) = currentConfig w \/
   exists c, currentConfig (snd (initialize w)) = Some c) /\
  (currentStatus (snd (initialize w)) = currentStatus w \/
   isActive (currentStatus (snd (initialize w))) = false).
Proof.
  unfold initialize, saveData, getData.
  run_async; split_matches; simplify_eq; cbn in *; split; eauto.
Qed.

Lemma startStream_frame settings w :
  currentConfig (snd (startStream settings w)) = currentConfig w /\
  destinations (snd (startStream settings w)) = destinations w /\
  (isActive (currentStatus (snd (startStream settings w))) = true ->
   isActive (currentStatus w) = true \/ currentConfig w <> None).
Proof.
  destruct (isActive (currentStatus w)) eqn:Hact.
  { rewrite startStream_alreadyActive by done. cbn. auto. }
  destruct (currentConfig w) as [cfg|] eqn:Hcfg.
  2:{ rewrite startStream_notConfigured by done. cbn. repeat split; auto. }
  destruct (destinations w) as [|d0 ds] eqn:Hds.
  { rewrite (startStream_noDestinations settings w cfg) by done. cbn.
    repeat split; auto. }
  destruct (startLoop_spec settings (List.filter enabled (destinations w)) (startedWorld w))
    as (calls & wl & Hloop & Hsame & _).
  assert (Hne : destinations w <> []) by (by rewrite Hds).
  rewrite (startStream_accepted settings w cfg wl Hact Hcfg Hne Hloop).
  destruct Hsame as (Hc & Hd & _). cbn in Hc, Hd.
  cbn zeta. destruct (kvFault (env wl) (KvSet "stream_status")); cbn;
    rewrite Hc, Hd, Hcfg, Hds; repeat split; auto.
Qed.

(** ** An invariant of the reachable worlds: an active session was started
    under a configuration *)

Lemma active_configured w :
  Reachable w ->
  isActive (currentStatus w) = true -> currentConfig w <> None.
Proof.
  induction 1 as [persisted now e | o w Hw IH | now e w Hw IH]; cbn.
  - discriminate.
  - destruct o; cbn [runOp]; intros Hact.
    + destruct (initialize_frame w) as [[Hc|[c Hc]] [Hs|Hs]];
        rewrite ?Hc, ?Hs in *; try done; try congruence; auto.
    + destruct (configureRelay_frame config w) as (Hs & _ & [Hc|Hc]);
        rewrite Hc; [|done]. apply IH. by rewrite <- Hs.
    + destruct (addDestination_frame destination w) as (Hs & Hc & _).
      rewrite Hc. apply IH. by rewrite <- Hs.
    + destruct (removeDestination_frame p account w) as (Hc & Hs & _).
      rewrite Hc. apply IH. by rewrite <- Hs.
    + destruct (startStream_frame settings w) as (Hc & _ & Hs).
      rewrite Hc. destruct (Hs Hact); auto.
    + destruct (stopStream_frame w) as (Hc & _ & Hs).
      rewrite Hc. auto.
  - exact IH.
Qed.

(** ** Worlds built by running operations are reachable *)

Lemma afterOps_reachable ops : forall w,
  Reachable w -> Reachable (Scenario.afterOps ops w).
Proof.
  induction ops as [|o ops IH]; intros w Hw; cbn; [done|].
  apply IH. by apply reach_op.
Qed.

(** ** The claims on [startStream] *)

(** C8.  In every world the controller can be in, [startStream] called when
    no RelayConfig is set (none configured, none restored from the store) is
    rejected with the not-configured error; no platform call is made, and
    [isActive], false before the call, is false after it. *)
Theorem C8_start_without_config settings w :
  Reachable w ->
  currentConfig w = None ->
  exists w',
    startStream settings w = (Rejected (JsError notConfiguredMessage), w') /\
    apiLog w' = apiLog w /\
    isActive (currentStatus w) = false /\
    isActive (currentStatus w') = false.
Proof.
  intros Hreach Hcfg.
  assert (Hact : isActive (currentStatus w) = false).
  { destruct (isActive (currentStatus w)) eqn:Hact; [|done].
    by destruct (active_configured w Hreach Hact). }
  rewrite startStream_notConfigured by done.
  eexists. split; [reflexivity|]. by cbn.
Qed.

Lemma C8_start_without_config_witness :
  exists w',
    startStream Scenario.settingsT (Scenario.freshWorld Scenario.apiAllOk) =
      (Rejected (JsError notConfiguredMessage), w') /\
    isActive (currentStatus w') = false.
Proof.
  destruct (C8_start_without_config Scenario.settingsT
              (Scenario.freshWorld Scenario.apiAllOk)) as (w' & H1 & _ & _ & H2).
  - apply reach_load.
  - reflexivity.
  - exists w'. split; assumption.
Defined.

(** C2, as stated, fails: with a configuration set and one destination,
    disabled, the set of enabled destinations is empty, yet [startStream]
    resolves and leaves [isActive] true. *)
Lemma C2_all_disabled_not_rejected :
  isActive (currentStatus Scenario.allDisabledWorld) = false /\
  destinations Scenario.allDisabledWorld = [Scenario.ytDisabled] /\
  List.filter enabled (destinations Scenario.allDisabledWorld) = [] /\
  fst (startStream Scenario.settingsT Scenario.allDisabledWorld) = Resolved tt /\
  isActive (currentStatus (snd (startStream Scenario.settingsT Scenario.allDisabledWorld)))
    = true.
Proof. evaluate. Qed.

(** C2, amended.  For a call made while inactive with a RelayConfig set:
    when the destination list is empty (no destination configured, enabled
    or not), [startStream] is rejected with the no-destinations error, no
    platform call is made and [isActive] remains false; when destinations
    exist but every one has [enabled = false], the call is accepted instead:
    no platform call is made either, and once the status is persisted the
    call resolves with [isActive] true and no platform entry. *)
Theorem C2_rejected_when_no_destination_configured settings w cfg :
  isActive (currentStatus w) = false ->
  currentConfig w = Some cfg ->
  (destinations w = [] ->
   exists w',
     startStream settings w = (Rejected (JsError noDestinationsMessage), w') /\
     apiLog w' = apiLog w /\
     isActive (currentStatus w') = false) /\
  (destinations w <> [] ->
   List.filter enabled (destinations w) = [] ->
   kvFault (env w) (KvSet "stream_status") = None ->
   exists w',
     startStream settings w = (Resolved tt, w') /\
     apiLog w' = apiLog w /\
     isActive (currentStatus w') = true /\
     platforms (currentStatus w') = noPlatforms).
Proof.
  intros Hact Hcfg. split.
  - intros Hds. rewrite (startStream_noDestinations settings w cfg) by done.
    eexists. split; [reflexivity|]. by cbn.
  - intros Hds Hen Hkv.
    rewrite (startStream_accepted settings w cfg (startedWorld w)) by (by rewrite ?Hen).
    cbn. rewrite Hkv. eexists. split; [reflexivity|]. by cbn.
Qed.

Lemma C2_rejected_when_no_destination_configured_witness :
  (exists w',
     startStream Scenario.settingsT
       (Scenario.afterOps [OpConfigure Scenario.config720]
          (Scenario.freshWorld Scenario.apiAllOk)) =
       (Rejected (JsError noDestinationsMessage), w') /\
     isActive (currentStatus w') = false) /\
  (exists w',
     startStream Scenario.settingsT Scenario.allDisabledWorld = (Resolved tt, w') /\
     apiLog w' = [] /\
     isActive (currentStatus w') = true).
Proof.
  split.
  - destruct (C2_rejected_when_no_destination_configured Scenario.settingsT
                (Scenario.afterOps [OpConfigure Scenario.config720]
                   (Scenario.freshWorld Scenario.apiAllOk))
                Scenario.config720 eq_refl eq_refl) as [Hempty _].
    destruct (Hempty eq_refl) as (w' & Hrun & _ & Hact).
    exists w'. split; assumption.
  - destruct (C2_rejected_when_no_destination_configured Scenario.settingsT
                Scenario.allDisabledWorld Scenario.config720 eq_refl eq_refl)
      as [_ Hdisabled].
    destruct Hdisabled as (w' & Hrun & Hlog & Hact & _).
    + discriminate.
    + reflexivity.
    + reflexivity.
    + exists w'. repeat split; assumption.
Defined.

(** C10.  When [startStream], called while inactive, is rejected by a
    precondition check (no RelayConfig set, or the destination list empty),
    the status that [getRelayStatus] then returns is the previous one with
    its top-level [error] overwritten by the rejection message: [isActive]
    is still false and no platform call has been made, but the record is not
    left as it was. *)
Theorem C10_rejection_overwrites_error settings w :
  isActive (currentStatus w) = false ->
  currentConfig w = None \/ destinations w = [] ->
  exists msg w',
    startStream settings w = (Rejected (JsError msg), w') /\
    msg = match currentConfig w with
          | None => notConfiguredMessage
          | Some _ => noDestinationsMessage
          end /\
    getRelayStatus w' =
      mkStatus false (startedAt (currentStatus w)) (duration (currentStatus w))
               (rs_bitrate (currentStatus w)) (platforms (currentStatus w))
               (Some msg) /\
    error (getRelayStatus w') = Some msg /\
    isActive (getRelayStatus w') = false /\
    apiLog w' = apiLog w.
Proof.
  intros Hact Hpre.
  destruct (currentConfig w) as [cfg|] eqn:Hcfg.
  - destruct Hpre as [?|Hds]; [done|].
    rewrite (startStream_noDestinations settings w cfg) by done.
    eexists _, _. split; [reflexivity|]. by cbn.
  - rewrite startStream_notConfigured by done.
    eexists _, _. split; [reflexivity|]. by cbn.
Qed.

Lemma C10_rejection_overwrites_error_witness :
  exists w',
    startStream Scenario.settingsT (Scenario.freshWorld Scenario.apiAllOk) =
      (Rejected (JsError notConfiguredMessage), w') /\
    error (getRelayStatus w') = Some notConfiguredMessage /\
    error (getRelayStatus (Scenario.freshWorld Scenario.apiAllOk)) = None.
Proof.
  destruct (C10_rejection_overwrites_error Scenario.settingsT
              (Scenario.freshWorld Scenario.apiAllOk))
    as (msg & w' & Hrun & Hmsg & _ & Herr & _).
  - reflexivity.
  - left. reflexivity.
  - cbn in Hmsg. subst msg. exists w'. repeat split; assumption.
Defined.

(** C9.  The aggregate has one slot per platform.  In an accepted
    [startStream] whose enabled destinations hold two destinations of the
    same platform and different accounts, the slot of that platform ends up
    with the entry written for the destination of that platform processed
    last: the identifier answered to its own create call if its start
    sequence succeeded, its own error message if it failed.  What an earlier
    destination of the platform left there is overwritten. *)
Theorem C9_platform_slot_keeps_last_outcome
    settings w cfg pre dEarly mid dLate post :
  isActive (currentStatus w) = false ->
  currentConfig w = Some cfg ->
  List.filter enabled (destinations w) = pre ++ dEarly :: mid ++ dLate :: post ->
  platform dEarly = platform dLate ->
  accountId dEarly <> accountId dLate ->
  (forall x, x ∈ post -> platform x <> platform dLate) ->
  let slot := getPlatform (platform dLate)
                (platforms (currentStatus (snd (startStream settings w)))) in
  match startSettles settings dLate w with
  | Resolved _ =>
      exists ident t,
        api (env w) (createCall settings dLate) = Resolved ident /\
        slot = Some (mkPlatformStatus true (Some ident) None (Some t) None)
  | Rejected e =>
      slot = Some (mkPlatformStatus false None None None (Some (errorMessage e)))
  end.
Proof.
  intros Hact Hcfg Hen Hsame Hacc Hpost slot.
  assert (Hds : destinations w <> []).
  { intros H0. rewrite H0 in Hen. by destruct pre. }
  destruct (startLoop_spec settings (List.filter enabled (destinations w)) (startedWorld w))
    as (calls & wl & Hloop & _ & _ & _ & _ & Hlast).
  destruct (Hlast (pre ++ dEarly :: mid) dLate post) as (ps & Hget & Hentry).
  { by rewrite Hen, <- app_assoc. }
  { exact Hpost. }
  apply (entryOf_indep _ _ _ w) in Hentry; [|done|done].
  assert (Hslot : slot = Some ps).
  { unfold slot. rewrite (startStream_accepted settings w cfg wl Hact Hcfg Hds Hloop).
    cbn zeta. by destruct (kvFault (env wl) (KvSet "stream_status")). }
  unfold entryOf in Hentry.
  destruct (startSettles settings dLate w).
  - destruct Hentry as (ident & t & Hid & ->). by exists ident, t.
  - by subst ps.
Qed.

Lemma C9_platform_slot_keeps_last_outcome_witness :
  fst (startStream Scenario.settingsT Scenario.twoAccountsWorld) = Resolved tt /\
  List.filter isStartCall
    (apiLog (snd (startStream Scenario.settingsT Scenario.twoAccountsWorld))) =
    [YtCreateBroadcast "acc1" "T" "D" None None vis_public;
     YtCreateStream "acc1" "T" "720p" 30;
     YtBindStreamToBroadcast "acc1" "b1" "s1";
     YtStartBroadcast "acc1" "b1";
     YtCreateBroadcast "acc2" "T" "D" None None vis_public] /\
  getPlatform youtube
    (platforms (currentStatus (snd (startStream Scenario.settingsT Scenario.twoAccountsWorld))))
  = Some (mkPlatformStatus false None None None
            (Some "YouTube account acc2 not found")).
Proof.
  split; [reflexivity|]. split; [reflexivity|].
  apply (C9_platform_slot_keeps_last_outcome Scenario.settingsT
           Scenario.twoAccountsWorld Scenario.config720
           [] Scenario.ytAcc1 [] Scenario.ytAcc2 []).
  - reflexivity.
  - reflexivity.
  - reflexivity.
  - reflexivity.
  - discriminate.
  - intros x Hx. inversion Hx.
Defined.

(** ** The destination registry *)

Lemma platform_eqb_eq a b : platform_eqb a b = true <-> a = b.
Proof. destruct a, b; cbn; split; congruence. Qed.

Lemma sameIdentity_spec p a d :
  sameIdentity p a d = true <-> platform d = p /\ accountId d = a.
Proof.
  unfold sameIdentity. rewrite andb_true_iff, platform_eqb_eq, String.eqb_eq.
  tauto.
Qed.

Lemma sameIdentity_self d : sameIdentity (platform d) (accountId d) d = true.
Proof. by apply sameIdentity_spec. Qed.

(** Records of one identity answer every identity test alike. *)
Lemma sameIdentity_congr p a x y :
  platform x = platform y -> accountId x = accountId y ->
  sameIdentity p a x = sameIdentity p a y.
Proof. unfold sameIdentity. by intros -> ->. Qed.

(** [upsertDestination] read along the list: the first record of the
    identity is merged in place; without one, the destination goes last. *)
Lemma upsert_nil d : upsertDestination d [] = [d].
Proof. reflexivity. Qed.

Lemma upsert_cons d x ds :
  upsertDestination d (x :: ds) =
    if sameIdentity (platform d) (accountId d) x
    then mergeDestination x d :: ds
    else x :: upsertDestination d ds.
Proof.
  unfold upsertDestination. cbn [findIndex].
  destruct (sameIdentity (platform d) (accountId d) x); [done|].
  destruct (findIndex _ ds) as [i|]; cbn; [|done].
  by destruct (ds !! i).
Qed.

Lemma find_upsert d ds :
  List.find (sameIdentity (platform d) (accountId d)) (upsertDestination d ds) =
    Some match List.find (sameIdentity (platform d) (accountId d)) ds with
         | Some existing => mergeDestination existing d
         | None => d
         end.
Proof.
  induction ds as [|x ds IH].
  - cbn. by rewrite sameIdentity_self.
  - rewrite upsert_cons. cbn [List.find].
    destruct (sameIdentity (platform d) (accountId d) x) eqn:Hx; cbn [List.find].
    + by rewrite (sameIdentity_congr _ _ (mergeDestination x d) d), sameIdentity_self.
    + by rewrite Hx.
Qed.

Lemma find_none_upsert d ds :
  List.find (sameIdentity (platform d) (accountId d)) ds = None ->
  upsertDestination d ds = ds ++ [d].
Proof.
  induction ds as [|x ds IH]; [done|].
  rewrite upsert_cons. cbn [List.find].
  destruct (sameIdentity (platform d) (accountId d) x); [done|].
  intros Hnone. by rewrite IH.
Qed.

Lemma count_upsert_same d ds :
  countIdentity (platform d) (accountId d) (upsertDestination d ds) =
    Nat.max 1 (countIdentity (platform d) (accountId d) ds).
Proof.
  unfold countIdentity. induction ds as [|x ds IH].
  - cbn. by rewrite sameIdentity_self.
  - rewrite upsert_cons.
    destruct (sameIdentity (platform d) (accountId d) x) eqn:Hx; cbn [List.filter].
    + rewrite (sameIdentity_congr _ _ (mergeDestination x d) d), sameIdentity_self, Hx by done.
      cbn [length]. lia.
    + rewrite Hx. exact IH.
Qed.

Lemma count_upsert_other p a d ds :
  sameIdentity p a d = false ->
  countIdentity p a (upsertDestination d ds) = countIdentity p a ds.
Proof.
  intros Hd. unfold countIdentity. induction ds as [|x ds IH].
  - cbn. by rewrite Hd.
  - rewrite upsert_cons.
    destruct (sameIdentity (platform d) (accountId d) x) eqn:Hx; cbn [List.filter].
    + apply sameIdentity_spec in Hx as [Hp Ha].
      rewrite (sameIdentity_congr p a (mergeDestination x d) x);
        [by destruct (sameIdentity p a x)| |]; cbn; congruence.
    + destruct (sameIdentity p a x); cbn [length]; by rewrite IH.
Qed.

(** The registry invariant holds of the empty registry and is kept by
    [addDestination] and [removeDestination]. *)
Lemma unique_nil : uniqueIdentities [].
Proof. intros p a. cbn. lia. Qed.

Lemma unique_upsert d ds :
  uniqueIdentities ds -> uniqueIdentities (upsertDestination d ds).
Proof.
  intros Hu p a. destruct (sameIdentity p a d) eqn:Hd.
  - apply sameIdentity_spec in Hd as [<- <-]. rewrite count_upsert_same.
    specialize (Hu (platform d) (accountId d)). lia.
  - rewrite count_upsert_other by done. apply Hu.
Qed.

Lemma unique_remove p a ds :
  uniqueIdentities ds ->
  uniqueIdentities (List.filter (fun d => negb (sameIdentity p a d)) ds).
Proof.
  intros Hu q b. specialize (Hu q b). unfold countIdentity in *.
  enough (length (List.filter (sameIdentity q b)
                    (List.filter (fun d => negb (sameIdentity p a d)) ds))
          <= length (List.filter (sameIdentity q b) ds))%nat by lia.
  clear Hu. induction ds as [|x ds IH]; [done|].
  cbn [List.filter].
  destruct (sameIdentity p a x); cbn [negb List.filter];
    destruct (sameIdentity q b x); cbn [length]; lia.
Qed.

(** The identities held by the registry, in order. *)
Lemma identities_upsert d ds :
  List.map (fun x => (platform x, accountId x)) (upsertDestination d ds) =
    match List.find (sameIdentity (platform d) (accountId d)) ds with
    | Some _ => List.map (fun x => (platform x, accountId x)) ds
    | None => List.map (fun x => (platform x, accountId x)) ds
                ++ [(platform d, accountId d)]
    end.
Proof.
  induction ds as [|x ds IH]; [done|].
  rewrite upsert_cons. cbn [List.find].
  destruct (sameIdentity (platform d) (accountId d) x) eqn:Hx; cbn [List.map].
  - apply sameIdentity_spec in Hx as [-> ->]. done.
  - rewrite IH. by destruct (List.find _ ds).
Qed.

(** C5.  In a registry with at most one record per identity,
    [addDestination d] followed by [addDestination d2], with [d2] of the
    identity of [d], leaves exactly one record of that identity.  Field by
    field: the record held after the first call has the [enabled] of [d]
    and, for each optional property, the value [d] provides or else the
    value of the record found before (none when the identity was new, in
    which case the record held is [d] itself); the record left by the
    second call has the [enabled] of [d2] and, for each optional property,
    the value [d2] provides or else the value held after the first call.  A
    destination of a new identity is appended; the order of the identities
    already held is kept. *)
Theorem C5_add_twice_upserts w d d2 :
  platform d2 = platform d ->
  accountId d2 = accountId d ->
  uniqueIdentities (destinations w) ->
  let p := platform d in
  let a := accountId d in
  let w1 := snd (addDestination d w) in
  let w2 := snd (addDestination d2 w1) in
  let before := List.find (sameIdentity p a) (destinations w) in
  exists held final,
    List.find (sameIdentity p a) (destinations w1) = Some held /\
    List.find (sameIdentity p a) (destinations w2) = Some final /\
    countIdentity p a (destinations w2) = 1%nat /\
    (platform held = p /\ accountId held = a /\ enabled held = enabled d /\
     streamKey held = match streamKey d with
                      | Some k => Some k
                      | None => match before with
                                | Some existing => streamKey existing
                                | None => None
                                end
                      end /\
     rtmpUrl held = match rtmpUrl d with
                    | Some u => Some u
                    | None => match before with
                              | Some existing => rtmpUrl existing
                              | None => None
                              end
                    end) /\
    (platform final = p /\ accountId final = a /\ enabled final = enabled d2 /\
     streamKey final = match streamKey d2 with
                       | Some k => Some k
                       | None => streamKey held
                       end /\
     rtmpUrl final = match rtmpUrl d2 with
                     | Some u => Some u
                     | None => rtmpUrl held
                     end) /\
    (before = None ->
     held = d /\
     destinations w1 = destinations w ++ [d] /\
     destinations w2 = destinations w ++ [final]) /\
    List.map (fun x => (platform x, accountId x)) (destinations w2) =
      List.map (fun x => (platform x, accountId x)) (destinations w1) /\
    uniqueIdentities (destinations w2).
Proof.
  intros Hp Ha Hu p a w1 w2 before. subst p a before.
  destruct (addDestination_frame d w) as (_ & _ & Hd1).
  destruct (addDestination_frame d2 w1) as (_ & _ & Hd2).
  fold w1 in Hd1. fold w2 in Hd2.
  set (held := match List.find (sameIdentity (platform d) (accountId d))
                       (destinations w) with
               | Some existing => mergeDestination existing d
               | None => d
               end).
  assert (Hf1 : List.find (sameIdentity (platform d) (accountId d))
                  (destinations w1) = Some held).
  { rewrite Hd1. apply find_upsert. }
  assert (Hf2 : List.find (sameIdentity (platform d) (accountId d))
                  (destinations w2) = Some (mergeDestination held d2)).
  { rewrite Hd2, <- Hp, <- Ha, find_upsert. by rewrite Hp, Ha, Hf1. }
  assert (Hu1 : uniqueIdentities (destinations w1)).
  { rewrite Hd1. by apply unique_upsert. }
  exists held, (mergeDestination held d2).
  split; [exact Hf1|]. split; [exact Hf2|].
  split.
  { rewrite Hd2, <- Hp, <- Ha, count_upsert_same.
    rewrite Hp, Ha, Hd1, count_upsert_same.
    specialize (Hu (platform d) (accountId d)). lia. }
  split.
  { subst held.
    destruct (List.find (sameIdentity (platform d) (accountId d)) (destinations w))
      as [existing|]; cbn; repeat split;
      try (by destruct (streamKey d)); by destruct (rtmpUrl d). }
  split.
  { cbn. by repeat split. }
  split.
  { intros Hnone. assert (H1 : destinations w1 = destinations w ++ [d]).
    { rewrite Hd1. by apply find_none_upsert. }
    split; [by subst held; rewrite Hnone|].
    split; [exact H1|]. rewrite Hd2, H1.
    assert (Hheld : held = d) by (by subst held; rewrite Hnone).
    rewrite Hheld. clear -Hp Ha Hnone.
    rewrite <- Hp, <- Ha in Hnone.
    induction (destinations w) as [|x ds IH].
    - cbn. rewrite upsert_cons.
      by rewrite (sameIdentity_congr _ _ d d2), sameIdentity_self.
    - cbn [List.find] in Hnone. rewrite <- app_comm_cons, upsert_cons.
      destruct (sameIdentity (platform d2) (accountId d2) x); [done|].
      by rewrite IH. }
  split.
  { by rewrite Hd2, identities_upsert, Hp, Ha, Hf1. }
  rewrite Hd2. by apply unique_upsert.
Qed.

Lemma C5_add_twice_upserts_witness :
  exists final,
    List.find (sameIdentity youtube "acc1")
      (destinations
         (snd (addDestination Scenario.ytDisabled
                 (snd (addDestination
                         (mkDestination youtube "acc1" true (Some "key") None)
                         (Scenario.readyWorld Scenario.apiAllOk)))))) =
      Some final /\
    enabled final = false /\
    streamKey final = Some "key" /\
    rtmpUrl final = None.
Proof.
  destruct (C5_add_twice_upserts (Scenario.readyWorld Scenario.apiAllOk)
              (mkDestination youtube "acc1" true (Some "key") None)
              Scenario.ytDisabled eq_refl eq_refl)
    as (held & final & _ & Hfind & _ & (_ & _ & _ & Hk1 & Hu1)
        & (_ & _ & He2 & Hk2 & Hu2) & _).
  - change (uniqueIdentities
              (upsertDestination Scenario.liAcc1
                 (upsertDestination Scenario.ytAcc1 []))).
    apply unique_upsert, unique_upsert, unique_nil.
  - exists final. split; [exact Hfind|]. split; [exact He2|].
    split.
    + rewrite Hk2, Hk1. reflexivity.
    + rewrite Hu2, Hu1. reflexivity.
Defined.

(** ** Start-up recovery *)

Lemma initialize_found w s :
  store w !! "stream_status" = Some (SvStatus s) ->
  kvFault (env w) (KvGet "relay_config") = None ->
  kvFault (env w) (KvGet "stream_destinations") = None ->
  kvFault (env w) (KvGet "stream_status") = None ->
  kvFault (env w) (KvSet "stream_status") = None ->
  exists w',
    initialize w = (Resolved tt, w') /\
    if isActive s
    then currentStatus w' = withError interruptedMessage (withActive false s) /\
         store w' !! "stream_status" = Some (SvStatus (currentStatus w'))
    else currentStatus w' = s /\ store w' = store w.
Proof.
  intros Hst Hg1 Hg2 Hg3 Hs.
  unfold initialize, getData, saveData; run_async.
  rewrite Hg1. cbn.
  destruct (store w !! "relay_config") as [[?|?|?]|]; cbn;
    rewrite ?Hg2; cbn;
    (destruct (store w !! "stream_destinations") as [[?|?|?]|]; cbn;
     rewrite ?Hg3, ?Hst; cbn;
     (destruct (isActive s) eqn:Hact; cbn; rewrite ?Hs; cbn;
      eexists; (split; [reflexivity|]); cbn;
      rewrite ?lookup_insert_eq; auto)).
Qed.

(** [initialize] run to its end without anything in between, finding a
    persisted status (the store serving the three reads and, when it comes
    to it, the write): if the status found has [isActive = true], the
    status adopted is that status with [isActive] set to false and [error]
    set to the interruption message, and this corrected status is in the
    store; if it has [isActive = false] it is adopted as found and the
    store is not written. *)
Lemma initialize_recovers w s :
  store w !! "stream_status" = Some (SvStatus s) ->
  kvFault (env w) (KvGet "relay_config") = None ->
  kvFault (env w) (KvGet "stream_destinations") = None ->
  kvFault (env w) (KvGet "stream_status") = None ->
  kvFault (env w) (KvSet "stream_status") = None ->
  exists w',
    initialize w = (Resolved tt, w') /\
    if isActive s
    then currentStatus w' =
           mkStatus false (startedAt s) (duration s) (rs_bitrate s) (platforms s)
                    (Some "Stream was interrupted due to application restart") /\
         store w' !! "stream_status" = Some (SvStatus (currentStatus w'))
    else currentStatus w' = s /\ store w' = store w.
Proof.
  intros Hst Hg1 Hg2 Hg3 Hs.
  destruct (initialize_found w s Hst Hg1 Hg2 Hg3 Hs) as (w' & Hrun & Hres).
  exists w'. split; [exact Hrun|exact Hres].
Qed.

(** Resumed four times in a row, the suspended [initialize] has done what
    [initialize] run in one go does. *)
Lemma resume_all w :
  Startup.resumeN 4 (Startup.AtConfig, w) = (Startup.Finished, snd (initialize w)).
Proof.
  unfold initialize, Startup.resumeN, Startup.resume, getData, saveData.
  run_async. split_matches; simplify_eq; cbn in *; try done; congruence.
Qed.

(** What a call finds when it is made right after the module is loaded,
    [initialize] being suspended at its first read: the initial status,
    whatever the store holds, and no configuration. *)
Lemma calls_at_load_precede_recovery persisted now e s settings :
  persisted !! "stream_status" = Some (SvStatus s) ->
  isActive s = true ->
  let w0 := snd (Startup.loaded persisted now e) in
  let w1 := snd (startStream settings w0) in
  getRelayStatus w0 = initialStatus /\
  fst (startStream settings w0) = Rejected (JsError notConfiguredMessage) /\
  apiLog w1 = [] /\
  store w1 !! "stream_status" = Some (SvStatus s).
Proof.
  intros Hst Hact w0 w1. subst w0 w1. unfold Startup.loaded. cbn [snd].
  rewrite startStream_notConfigured by done. by cbn.
Qed.

(** C4, on a restart.  The module is loaded over the store a streaming
    session left behind: it holds a configuration and a status that says
    active.  [initialize] is suspended at its first read when the importing
    module runs.  A [getRelayStatus] made then returns the initial status,
    without the interruption error; a [startStream] made then is served,
    and rejected as not configured although a configuration is persisted;
    and when it has been served the store still holds the status that says
    active.  Only when [initialize] has been resumed to its end is the
    corrected status adopted and persisted.  So calls are served before the
    correction is persisted. *)
Theorem C4_calls_served_before_recovery :
  let persisted := currentStatus Scenario.streamingWorld in
  let st0 := Startup.loaded (store Scenario.streamingWorld) 9000
               (Scenario.envOf Scenario.apiAllOk) in
  let w1 := snd (startStream Scenario.settingsT (snd st0)) in
  let st := Startup.resumeN 4 (fst st0, w1) in
  isActive persisted = true /\
  store (snd st0) !! "stream_status" = Some (SvStatus persisted) /\
  store (snd st0) !! "relay_config" = Some (SvConfig Scenario.config720) /\
  fst st0 = Startup.AtConfig /\
  getRelayStatus (snd st0) = initialStatus /\
  fst (startStream Scenario.settingsT (snd st0)) =
    Rejected (JsError "Relay not configured. Call configureRelay first.") /\
  store w1 !! "stream_status" = Some (SvStatus persisted) /\
  fst st = Startup.Finished /\
  currentStatus (snd st) =
    mkStatus false (startedAt persisted) (duration persisted)
             (rs_bitrate persisted) (platforms persisted)
             (Some "Stream was interrupted due to application restart") /\
  store (snd st) !! "stream_status" = Some (SvStatus (currentStatus (snd st))) /\
  currentConfig (snd st) = Some Scenario.config720.
Proof.
  cbv zeta.
  destruct (calls_at_load_precede_recovery (store Scenario.streamingWorld) 9000
              (Scenario.envOf Scenario.apiAllOk)
              (currentStatus Scenario.streamingWorld) Scenario.settingsT)
    as (Hget & Hrej & _ & Hsto).
  { vm_compute. reflexivity. }
  { vm_compute. reflexivity. }
  split; [vm_compute; reflexivity|].
  split; [vm_compute; reflexivity|].
  split; [vm_compute; reflexivity|].
  split; [reflexivity|].
  split; [exact Hget|].
  split; [exact Hrej|].
  split; [exact Hsto|].
  repeat match goal with |- _ /\ _ => split end; vm_compute; reflexivity.
Qed.

(** ** Stopping *)

(** [stopBranch] case by case. *)
Lemma stopBranch_not_found p account w :
  List.find (matchesStop p account) (destinations w) = None ->
  stopBranch p account w =
    (Rejected (JsError (platformName p ++ " destination not found for account "
                          ++ accountOrAny account)), w).
Proof. intros Hf. unfold stopBranch; run_async. by rewrite Hf. Qed.

Lemma stopBranch_found p account w d ident :
  List.find (matchesStop p account) (destinations w) = Some d ->
  platformStreamId p (currentStatus w) = Some ident ->
  truthy ident = true ->
  stopBranch p account w =
    let w1 := elapse (logCall (endCall p (accountId d) ident) w) in
    match api (env w) (endCall p (accountId d) ident) with
    | Resolved _ => (Resolved tt, updStatus (withPlatform p stoppedStatus) w1)
    | Rejected e => (Rejected e, w1)
    end.
Proof.
  intros Hf Hid Ht. unfold stopBranch; run_async. rewrite Hf, Hid, Ht. cbn.
  by destruct (api (env w) (endCall p (accountId d) ident)).
Qed.

(** Once the destination has been filtered out of the registry, a lookup
    for it by (platform, non-empty account) finds nothing. *)
Lemma find_after_remove p a ds :
  truthy a = true ->
  List.find (matchesStop p (Some a))
    (List.filter (fun d => negb (sameIdentity p a d)) ds) = None.
Proof.
  intros Ha. induction ds as [|x ds IH]; [done|].
  cbn [List.filter]. destruct (sameIdentity p a x) eqn:Hx; cbn [negb]; [done|].
  cbn [List.find]. unfold matchesStop at 1. rewrite Ha.
  unfold sameIdentity in Hx. by rewrite Hx.
Qed.

(** [removeDestination] of a destination whose platform is streaming, in
    general: the registry is filtered and persisted first, the lookup made
    by [stopPlatformStream] then fails, and the call rejects, the platform
    entry left as it was. *)
Lemma removeDestination_streaming p a w ps ident :
  isActive (currentStatus w) = true ->
  getPlatform p (platforms (currentStatus w)) = Some ps ->
  isStreaming ps = true ->
  streamId ps = Some ident ->
  truthy ident = true ->
  truthy a = true ->
  kvFault (env w) (KvSet "stream_destinations") = None ->
  fst (removeDestination p a w) =
    Rejected (JsError (platformName p ++ " destination not found for account " ++ a)) /\
  currentStatus (snd (removeDestination p a w)) = currentStatus w /\
  apiLog (snd (removeDestination p a w)) = apiLog w.
Proof.
  intros Hact Hget Hstr Hid Htid Ha Hkv.
  pose proof (find_after_remove p a (destinations w) Ha) as Hfind.
  unfold removeDestination, saveData, stopPlatformStream, stopBranch,
    platformStreamId, platformStreaming, accountOrAny.
  destruct p; cbn [getPlatform] in *; run_async;
    repeat (progress (rewrite ?Hkv, ?Hact, ?Hget, ?Hid, ?Htid, ?Hstr, ?Hfind, ?Ha; cbn));
    done.
Qed.

(** With the destination found and the end call answered, one platform's
    stop resolves and leaves the platform not streaming. *)
Lemma stopPlatformStream_succeeds p w :
  (platformStreaming p (currentStatus w) = true ->
   exists d, List.find (matchesStop p None) (destinations w) = Some d) ->
  (forall c, isEndCall c = true -> exists r, api (env w) c = Resolved r) ->
  exists w',
    stopPlatformStream p None w = (Resolved tt, w') /\
    sameOutsidePlatforms w w' /\
    platformStreaming p (currentStatus w') = false /\
    (forall q, q <> p ->
       getPlatform q (platforms (currentStatus w')) =
       getPlatform q (platforms (currentStatus w))) /\
    (0 <= latency (env w) -> clock w <= clock w').
Proof.
  intros Hfind Hapi.
  unfold stopPlatformStream, stopBranch.
  destruct (platformStreaming p (currentStatus w)) eqn:Hs.
  - destruct (Hfind eq_refl) as [d Hd].
    destruct p; run_async; rewrite Hs; cbn; rewrite Hd; cbn.
    + destruct (platformStreamId youtube (currentStatus w)) as [ident|]; cbn;
        [destruct (truthy ident); cbn;
         [destruct (Hapi (YtEndBroadcast (accountId d) ident) eq_refl) as [r ->]; cbn|]|];
        (eexists; split; [reflexivity|]; cbn; repeat split; auto; try lia;
         intros [] Hq; done).
    + destruct (platformStreamId linkedin (currentStatus w)) as [ident|]; cbn;
        [destruct (truthy ident); cbn;
         [destruct (Hapi (LiEndLiveEvent (accountId d) ident) eq_refl) as [r ->]; cbn|]|];
        (eexists; split; [reflexivity|]; cbn; repeat split; auto; try lia;
         intros [] Hq; done).
  - destruct p; run_async; rewrite Hs; cbn;
      (eexists; split; [reflexivity|]; repeat split; auto; lia).
Qed.

(** When every stop succeeds, [stopStream] does what is expected of it:
    both platforms end up not streaming, the aggregate becomes inactive with
    the whole seconds elapsed since [startedAt] as duration, and the result
    is persisted. *)
Lemma stopStream_when_stops_succeed w t0 :
  isActive (currentStatus w) = true ->
  startedAt (currentStatus w) = Some t0 ->
  (forall p, platformStreaming p (currentStatus w) = true ->
     exists d, List.find (matchesStop p None) (destinations w) = Some d) ->
  (forall c, isEndCall c = true -> exists r, api (env w) c = Resolved r) ->
  kvFault (env w) (KvSet "stream_status") = None ->
  exists w' endTime,
    stopStream w = (Resolved tt, w') /\
    isActive (currentStatus w') = false /\
    platformStreaming youtube (currentStatus w') = false /\
    platformStreaming linkedin (currentStatus w') = false /\
    duration (currentStatus w') = Some ((endTime - t0) / 1000) /\
    (0 <= latency (env w) -> clock w <= endTime) /\
    (0 <= latency (env w) -> t0 <= clock w -> 0 <= (endTime - t0) / 1000) /\
    store w' !! "stream_status" = Some (SvStatus (currentStatus w')).
Proof.
  intros Hact Ht0 Hfind Hapi Hkv.
  destruct (stopPlatformStream_succeeds youtube w (Hfind youtube) Hapi)
    as (w1 & Hrun1 & Hsame1 & Hyt1 & Hother1 & Hclock1).
  assert (Hli_eq : platformStreaming linkedin (currentStatus w1) =
                   platformStreaming linkedin (currentStatus w)).
  { unfold platformStreaming. by rewrite Hother1. }
  destruct Hsame1 as (Hc1 & Hd1 & Hp1 & Hs1 & He1 & Ha1 & Hst1 & Hdu1 & Hb1 & Her1).
  destruct (stopPlatformStream_succeeds linkedin w1) as
    (w2 & Hrun2 & Hsame2 & Hli2 & Hother2 & Hclock2).
  { rewrite Hli_eq, Hd1. apply Hfind. }
  { rewrite He1. exact Hapi. }
  assert (Hyt2 : platformStreaming youtube (currentStatus w2) = false).
  { unfold platformStreaming in *. by rewrite Hother2. }
  destruct Hsame2 as (Hc2 & Hd2 & Hp2 & Hs2 & He2 & Ha2 & Hst2 & Hdu2 & Hb2 & Her2).
  (* the world after the two optional stops *)
  assert (Hstops : exists w3,
    (when (platformStreaming youtube (currentStatus w)) (stopPlatformStream youtube None) ;;
     st1 <- gets currentStatus ;;
     when (platformStreaming linkedin st1) (stopPlatformStream linkedin None)) w
      = (Resolved tt, w3) /\
    env w3 = env w /\ store w3 = store w /\
    startedAt (currentStatus w3) = Some t0 /\
    platformStreaming youtube (currentStatus w3) = false /\
    platformStreaming linkedin (currentStatus w3) = false /\
    (0 <= latency (env w) -> clock w <= clock w3)).
  { unfold when, bind, gets.
    destruct (platformStreaming youtube (currentStatus w)) eqn:Hy.
    - rewrite Hrun1. cbn. destruct (platformStreaming linkedin (currentStatus w1)) eqn:Hl.
      + rewrite Hrun2. exists w2. repeat split; try congruence.
        intros Hlat. rewrite He1 in Hclock2. specialize (Hclock1 Hlat).
        specialize (Hclock2 Hlat). lia.
      + exists w1. cbn. repeat split; auto; congruence.
    - cbn. destruct (platformStreaming linkedin (currentStatus w)) eqn:Hl.
      + (* only LinkedIn streams *)
        destruct (stopPlatformStream_succeeds linkedin w (Hfind linkedin) Hapi)
          as (w2' & Hrun2' & Hsame2' & Hli2' & Hother2' & Hclock2').
        rewrite Hrun2'. exists w2'.
        destruct Hsame2' as (_ & _ & _ & Hs' & He' & _ & Hst' & _).
        repeat split; try congruence; auto.
        unfold platformStreaming in *. by rewrite Hother2'.
      + exists w. cbn. repeat split; auto. lia. }
  destruct Hstops as (w3 & Hrun3 & He3 & Hs3 & Hst3 & Hy3 & Hl3 & Hclock3).
  exists (elapse (setStore (<["stream_status" :=
            SvStatus (withDuration ((clock w3 - t0) / 1000)
                        (withActive false (currentStatus w3)))]> (store w3))
          (setStatus (withDuration ((clock w3 - t0) / 1000)
                        (withActive false (currentStatus w3)))
             (setProcessId None w3)))), (clock w3).
  split.
  { unfold stopStream, tryCatch, bind at 1, gets at 1. rewrite Hact. cbn [negb].
    unfold bind in Hrun3 |- *. unfold gets at 1 in Hrun3.
    destruct (when (platformStreaming youtube (currentStatus w))
                (stopPlatformStream youtube None) w) as [[[]|e] wa] eqn:Hwa;
      [|discriminate].
    unfold gets at 1. rewrite Hrun3.
    unfold saveData, modify, gets, updStatus. cbn. rewrite Hst3. cbn.
    rewrite He3, Hkv. reflexivity. }
  cbn. rewrite lookup_insert_eq.
  repeat split; auto.
  intros Hlat Hle. apply Z.div_pos; [|lia]. specialize (Hclock3 Hlat). lia.
Qed.

(** C6, on the test script's scenario: YouTube and LinkedIn are both
    streaming and [removeDestination("linkedin", "acc1")] is called.  The
    destination is removed and the YouTube entry and [isActive] are left as
    they were, but the call rejects, no end call is made, and the LinkedIn
    entry still shows [isStreaming = true]. *)
Theorem C6_remove_streaming_destination_rejects :
  let w := Scenario.streamingWorld in
  let w' := snd (removeDestination linkedin "acc1" w) in
  isActive (currentStatus w) = true /\
  platformStreaming linkedin (currentStatus w) = true /\
  fst (removeDestination linkedin "acc1" w) =
    Rejected (JsError "LinkedIn destination not found for account acc1") /\
  destinations w' = [Scenario.ytAcc1] /\
  platformStreaming linkedin (currentStatus w') = true /\
  List.filter isEndCall (apiLog w') = [] /\
  getPlatform youtube (platforms (currentStatus w')) =
    getPlatform youtube (platforms (currentStatus w)) /\
  isActive (currentStatus w') = true.
Proof. evaluate. Qed.

(** C3, on a scenario: YouTube and LinkedIn are both streaming and
    [stopStream] is called when YouTube refuses the end of the broadcast.
    The failure is not contained: [stopStream] rejects, LinkedIn's
    [endLiveEvent] is never invoked, and the aggregate stays active, with no
    duration and nothing persisted. *)
Theorem C3_stop_failure_aborts_stop :
  let w := Scenario.streamingWorldEndFails in
  let w' := snd (stopStream w) in
  isActive (currentStatus w) = true /\
  platformStreaming youtube (currentStatus w) = true /\
  platformStreaming linkedin (currentStatus w) = true /\
  fst (stopStream w) = Rejected (JsError "YouTube API error: 403") /\
  List.filter isEndCall (apiLog w') = [YtEndBroadcast "acc1" "b1"] /\
  platformStreaming linkedin (currentStatus w') = true /\
  isActive (currentStatus w') = true /\
  duration (currentStatus w') = None /\
  store w' !! "stream_status" = store w !! "stream_status".
Proof. evaluate. Qed.

End RelayFacts.

(** * Properties of the account store *)

Module StateManagerFacts.
Import StateManager.

Ltac run_sm :=
  unfold kv_set, kv_get, kv_list, kv_delete, getCachedValue, setCachedValue,
    clearCacheKey, rethrow;
  unfold tryCatch, bind, ret, throw, gets, modify, backend;
  cbn -[generateCacheKey accountKey platformPrefix ACCOUNTS_PREFIX].

(** The cache key of a platform's list is neither the key of an account nor
    the key of the list of all accounts. *)
Lemma platform_key_not_account_key p ident :
  generateCacheKey (platformPrefix p) <> generateCacheKey (accountKey p ident).
Proof. destruct p; cbn; discriminate. Qed.

Lemma platform_key_not_all_key p :
  generateCacheKey (platformPrefix p) <> generateCacheKey ACCOUNTS_PREFIX.
Proof. destruct p; cbn; discriminate. Qed.

(** What a successful [saveAccount] does to the cache: the entry of the
    account and the entry of the list of all accounts are cleared, every
    other entry is kept, the entry of the platform's list among them. *)
Lemma saveAccount_cache a m :
  kvError m = None ->
  let m' := snd (saveAccount a m) in
  fst (saveAccount a m) = Resolved tt /\
  kv m' = kvInsert (accountKey (platform a) (id a)) a (kv m) /\
  now m' = now m /\ kvError m' = None /\
  cache m' !! generateCacheKey (accountKey (platform a) (id a)) = None /\
  cache m' !! generateCacheKey ACCOUNTS_PREFIX = None /\
  cache m' !! generateCacheKey (platformPrefix (platform a)) =
    cache m !! generateCacheKey (platformPrefix (platform a)) /\
  cacheExpiry m' !! generateCacheKey (platformPrefix (platform a)) =
    cacheExpiry m !! generateCacheKey (platformPrefix (platform a)).
Proof.
  intros Hup. unfold saveAccount; run_sm. rewrite Hup.
  cbn -[generateCacheKey accountKey platformPrefix ACCOUNTS_PREFIX].
  pose proof (platform_key_not_account_key (platform a) (id a)) as H1.
  pose proof (platform_key_not_all_key (platform a)) as H2.
  repeat split; try done.
  - destruct (decide (generateCacheKey ACCOUNTS_PREFIX =
                      generateCacheKey (accountKey (platform a) (id a)))) as [->|Hne].
    + apply lookup_delete_eq.
    + rewrite lookup_delete_ne by done. apply lookup_delete_eq.
  - apply lookup_delete_eq.
  - by rewrite !lookup_delete_ne.
  - by rewrite !lookup_delete_ne.
Qed.

(** A list of a platform's accounts cached before [saveAccount] is what
    [getAccountsByPlatform] returns after it, for as long as the entry has
    not expired. *)
Lemma saveAccount_leaves_platform_list a m l expiry dt :
  kvError m = None ->
  cache m !! generateCacheKey (platformPrefix (platform a)) = Some (CvAccounts l) ->
  cacheExpiry m !! generateCacheKey (platformPrefix (platform a)) = Some expiry ->
  expiry <> 0 ->
  now m + dt < expiry ->
  fst (getAccountsByPlatform (platform a) (advance dt (snd (saveAccount a m)))) =
    Resolved l.
Proof.
  intros Hup Hc He Hnz Hlt.
  destruct (saveAccount_cache a m Hup) as (_ & _ & Hnow & _ & _ & _ & Hc' & He').
  cbn zeta in *. set (m' := snd (saveAccount a m)) in *.
  unfold getAccountsByPlatform; run_sm.
  rewrite He', He, Hnow. rewrite Hc', Hc.
  assert (Hb1 : (expiry =? 0) = false) by (by apply Z.eqb_neq).
  assert (Hb2 : (now m + dt <? expiry) = true) by (by apply Z.ltb_lt).
  by rewrite Hb1, Hb2.
Qed.

(** C7, on a scenario.  The list of YouTube accounts, empty, is read and
    cached; [account1], a YouTube account, is saved; one second later, well
    within the five minutes of the cache, the account is in the store and
    [getAccount] and [getAllAccounts] return it, but
    [getAccountsByPlatform("youtube")] still returns the empty list: its
    cache entry, keyed by a prefix of the account's key, was not cleared.
    [deleteAccount] does clear that entry. *)
Theorem C7_platform_list_stale_after_save :
  let m := Scenario.savedManager in
  kvLookup (accountKey youtube "id1") (kv m) = Some Scenario.account1 /\
  (now m - 1000 <? DEFAULT_CACHE_TTL) = true /\
  fst (getAccount youtube "id1" m) = Resolved (Some Scenario.account1) /\
  fst (getAllAccounts m) = Resolved [Scenario.account1] /\
  fst (getAccountsByPlatform youtube m) = Resolved [] /\
  fst (getAccountsByPlatform youtube (advance DEFAULT_CACHE_TTL m)) =
    Resolved [Scenario.account1] /\
  cache m !! generateCacheKey (platformPrefix youtube) = Some (CvAccounts []) /\
  cache (snd (deleteAccount youtube "id1" m)) !! generateCacheKey (platformPrefix youtube)
    = None.
Proof.
  cbv zeta; repeat match goal with |- _ /\ _ => split end;
    vm_compute; reflexivity.
Qed.

End StateManagerFacts.

(** * Further properties of the relay controller *)

Module RelayLifecycle.
Import Relay RelayFacts RelayInvariants.

(** ** Sessions: start, stop, start again *)

Lemma stopStream_inactive w :
  isActive (currentStatus w) = false -> stopStream w = (Resolved tt, w).
Proof.
  intros Hact. unfold stopStream, tryCatch, bind at 1, gets at 1.
  by rewrite Hact.
Qed.

Lemma stopStream_resolved_inactive w :
  fst (stopStream w) = Resolved tt ->
  isActive (currentStatus (snd (stopStream w))) = false.
Proof.
  unfold stopStream, saveData, stopPlatformStream, stopBranch.
  run_async; split_matches; simplify_eq; cbn in *; try done; try congruence.
  intros _. by destruct (isActive (currentStatus w)).
Qed.

(** X1.  Whenever [startStream] resolves, the session is active afterwards,
    and a further [startStream], with whatever settings, resolves at once
    and changes nothing: no call, no write, no new start time. *)
Theorem X1_start_resolved_then_active settings settings' w :
  fst (startStream settings w) = Resolved tt ->
  let w' := snd (startStream settings w) in
  isActive (currentStatus w') = true /\
  startStream settings' w' = (Resolved tt, w').
Proof.
  intros Hres w'.
  assert (Hact' : isActive (currentStatus w') = true).
  { subst w'. revert Hres.
    destruct (isActive (currentStatus w)) eqn:Hact.
    { by rewrite startStream_alreadyActive. }
    destruct (currentConfig w) as [cfg|] eqn:Hcfg.
    2:{ by rewrite startStream_notConfigured. }
    destruct (destinations w) as [|d0 ds] eqn:Hds.
    { by rewrite (startStream_noDestinations settings w cfg). }
    destruct (startLoop_spec settings (List.filter enabled (destinations w)) (startedWorld w))
      as (calls & wl & Hloop & Hsame & _).
    assert (Hne : destinations w <> []) by (by rewrite Hds).
    rewrite (startStream_accepted settings w cfg wl Hact Hcfg Hne Hloop).
    destruct Hsame as (_ & _ & _ & _ & _ & Hia & _). cbn in Hia.
    cbn zeta. by destruct (kvFault (env wl) (KvSet "stream_status")). }
  split; [done|]. by apply startStream_alreadyActive.
Qed.

Lemma X1_start_resolved_then_active_witness :
  isActive (currentStatus
    (snd (startStream Scenario.settingsT
            (Scenario.readyWorld Scenario.apiAllOk)))) = true.
Proof.
  destruct (X1_start_resolved_then_active Scenario.settingsT Scenario.settingsT
              (Scenario.readyWorld Scenario.apiAllOk)) as [H _].
  - vm_compute. reflexivity.
  - exact H.
Defined.

(** X2.  Whenever [stopStream] resolves, the session is inactive afterwards;
    the simulated relay process is cleared if a session was active and left
    alone otherwise; and a further [stopStream] resolves at once and changes
    nothing. *)
Theorem X2_stop_resolved_then_inactive w :
  fst (stopStream w) = Resolved tt ->
  let w' := snd (stopStream w) in
  isActive (currentStatus w') = false /\
  streamProcessId w' = (if isActive (currentStatus w) then None else streamProcessId w) /\
  stopStream w' = (Resolved tt, w').
Proof.
  intros Hres w'.
  assert (Hact' : isActive (currentStatus w') = false)
    by (by apply stopStream_resolved_inactive).
  split; [done|]. split; [|by apply stopStream_inactive].
  subst w'. revert Hres.
  unfold stopStream, saveData, stopPlatformStream, stopBranch.
  run_async; split_matches; simplify_eq; cbn in *; try done; try congruence.
Qed.

Lemma X2_stop_resolved_then_inactive_witness :
  isActive (currentStatus (snd (stopStream Scenario.streamingWorld))) = false.
Proof.
  destruct (X2_stop_resolved_then_inactive Scenario.streamingWorld) as [H _].
  - vm_compute. reflexivity.
  - exact H.
Defined.

(** X3.  Whatever the state, every platform call [startStream] makes is a
    call of a start sequence, made with the account of a registered and
    enabled destination on that destination's platform: it ends nothing and
    never touches a disabled or unregistered account. *)
Theorem X3_start_calls_only_enabled settings w :
  exists calls,
    apiLog (snd (startStream settings w)) = apiLog w ++ calls /\
    Forall (fun c => exists d, In d (destinations w) /\ enabled d = true /\
                               startCallOf d c) calls.
Proof.
  destruct (isActive (currentStatus w)) eqn:Hact.
  { rewrite startStream_alreadyActive by done. exists []. by rewrite app_nil_r. }
  destruct (currentConfig w) as [cfg|] eqn:Hcfg.
  2:{ rewrite startStream_notConfigured by done. exists []. cbn. by rewrite app_nil_r. }
  destruct (destinations w) as [|d0 ds] eqn:Hds.
  { rewrite (startStream_noDestinations settings w cfg) by done.
    exists []. cbn. by rewrite app_nil_r. }
  rewrite <- Hds.
  destruct (startLoop_spec settings (List.filter enabled (destinations w)) (startedWorld w))
    as (calls & wl & Hloop & _ & Hlog & Hcalls & _).
  assert (Hne : destinations w <> []) by (by rewrite Hds).
  rewrite (startStream_accepted settings w cfg wl Hact Hcfg Hne Hloop).
  exists calls. split.
  - cbn zeta. by destruct (kvFault (env wl) (KvSet "stream_status")).
  - eapply Forall_impl; [exact Hcalls|]. intros c (d & Hd & Hc).
    apply list_elem_of_In, filter_In in Hd as [Hin Hen]. by exists d.
Qed.

Lemma last_of_platform p (l : list StreamDestination) :
  existsb (fun x => platform_eqb (platform x) p) l = true ->
  exists l1 d l2, l = l1 ++ d :: l2 /\ platform d = p /\
                  forall x, x ∈ l2 -> platform x <> p.
Proof.
  induction l as [|x l IH]; cbn; [done|].
  destruct (existsb (fun x => platform_eqb (platform x) p) l) eqn:Hl.
  - intros _. destruct (IH eq_refl) as (l1 & d & l2 & -> & Hp & Hl2).
    by exists (x :: l1), d, l2.
  - rewrite orb_false_r. intros Hx%platform_eqb_eq.
    exists [], x, l. repeat split; [done|].
    intros y Hy%list_elem_of_In Heq.
    assert (existsb (fun x => platform_eqb (platform x) p) l = true); [|congruence].
    apply existsb_exists. exists y. split; [done|]. by apply platform_eqb_eq.
Qed.

(** X4.  After an accepted [startStream] (inactive, configured, registry not
    empty), a platform has an entry in the status exactly when some enabled
    destination of the registry is on that platform. *)
Theorem X4_entries_for_enabled_platforms settings w cfg p :
  isActive (currentStatus w) = false ->
  currentConfig w = Some cfg ->
  destinations w <> [] ->
  is_Some (getPlatform p (platforms (currentStatus (snd (startStream settings w))))) <->
  exists d, In d (destinations w) /\ enabled d = true /\ platform d = p.
Proof.
  intros Hact Hcfg Hne.
  destruct (startLoop_spec settings (List.filter enabled (destinations w)) (startedWorld w))
    as (calls & wl & Hloop & _ & _ & _ & Hkeep & Hlast).
  assert (Hpf : platforms (currentStatus (snd (startStream settings w))) =
                platforms (currentStatus wl)).
  { rewrite (startStream_accepted settings w cfg wl Hact Hcfg Hne Hloop).
    cbn zeta. by destruct (kvFault (env wl) (KvSet "stream_status")). }
  rewrite Hpf.
  destruct (existsb (fun x => platform_eqb (platform x) p)
              (List.filter enabled (destinations w))) eqn:Hex.
  - pose proof Hex as Hex'. apply existsb_exists in Hex' as (d & Hd & Hp).
    apply filter_In in Hd as [Hin Hen]. apply platform_eqb_eq in Hp.
    split; [intros _; by exists d|]. intros _.
    destruct (last_of_platform p _ Hex) as (l1 & d' & l2 & Heq & Hp' & Hl2).
    rewrite <- Hp' in Hl2 |- *.
    destruct (Hlast l1 d' l2 Heq Hl2) as (ps & Hget & _).
    by exists ps.
  - rewrite Hkeep.
    + cbn. split; [by destruct p; intros [? ?]|].
      intros (d & Hin & Hen & Hp).
      assert (existsb (fun x => platform_eqb (platform x) p)
                (List.filter enabled (destinations w)) = true); [|congruence].
      apply existsb_exists. exists d. split; [by apply filter_In|].
      by apply platform_eqb_eq.
    + intros d Hd%list_elem_of_In Hp.
      assert (existsb (fun x => platform_eqb (platform x) p)
                (List.filter enabled (destinations w)) = true); [|congruence].
      apply existsb_exists. exists d. split; [done|]. by apply platform_eqb_eq.
Qed.

Lemma X4_entries_for_enabled_platforms_witness :
  is_Some (getPlatform linkedin
    (platforms (currentStatus
       (snd (startStream Scenario.settingsT
               (Scenario.readyWorld Scenario.apiLinkedInDown)))))).
Proof.
  destruct (X4_entries_for_enabled_platforms Scenario.settingsT
              (Scenario.readyWorld Scenario.apiLinkedInDown)
              Scenario.config720 linkedin) as [_ H].
  - vm_compute. reflexivity.
  - vm_compute. reflexivity.
  - vm_compute. discriminate.
  - apply H. exists Scenario.liAcc1. split.
    + vm_compute. right. left. reflexivity.
    + split; reflexivity.
Defined.

(** X5.  When an accepted [startStream] cannot write the status to the
    store, it rejects with the store's wrapped message, marks the session
    inactive with that message as error and leaves the store as it was;
    yet every platform whose start sequence succeeded has been started
    remotely and its slot still says it is streaming. *)
Theorem X5_start_store_failure settings w cfg msg :
  isActive (currentStatus w) = false ->
  currentConfig w = Some cfg ->
  destinations w <> [] ->
  kvFault (env w) (KvSet "stream_status") = Some msg ->
  let failure := ("Failed to save data with key " ++ dquote ++ "stream_status"
                    ++ dquote ++ ": " ++ msg)%string in
  let w' := snd (startStream settings w) in
  fst (startStream settings w) = Rejected (JsError failure) /\
  isActive (currentStatus w') = false /\
  error (currentStatus w') = Some failure /\
  store w' = store w /\
  (forall l1 d l2,
     List.filter enabled (destinations w) = l1 ++ d :: l2 ->
     (forall x, x ∈ l2 -> platform x <> platform d) ->
     startSettles settings d w = Resolved tt ->
     platformStreaming (platform d) (currentStatus w') = true).
Proof.
  intros Hact Hcfg Hne Hkv failure w'.
  destruct (startLoop_spec settings (List.filter enabled (destinations w)) (startedWorld w))
    as (calls & wl & Hloop & Hsame & _ & _ & _ & Hlast).
  subst w'. rewrite (startStream_accepted settings w cfg wl Hact Hcfg Hne Hloop).
  destruct Hsame as (_ & _ & _ & Hst & Hev & _).
  cbn zeta. rewrite Hev. cbn [env startedWorld setStatus]. rewrite Hkv.
  cbn -[getPlatform platformStreaming].
  repeat split; auto.
  intros l1 d l2 Heq Hl2 Hok.
  destruct (Hlast l1 d l2 Heq Hl2) as (ps & Hget & Hentry).
  apply (entryOf_indep _ _ _ w) in Hentry; [|done|done].
  unfold entryOf in Hentry. rewrite Hok in Hentry.
  destruct Hentry as (ident & t & _ & ->).
  unfold platformStreaming. cbn -[getPlatform]. by rewrite Hget.
Qed.

Lemma X5_start_store_failure_witness :
  isActive (currentStatus
    (snd (startStream Scenario.settingsT Cases.statusWriteFailsWorld))) = false /\
  platformStreaming youtube (currentStatus
    (snd (startStream Scenario.settingsT Cases.statusWriteFailsWorld))) = true.
Proof.
  destruct (X5_start_store_failure Scenario.settingsT Cases.statusWriteFailsWorld
              Scenario.config720 "disk full")
    as (_ & Hact & _ & _ & Hlive).
  - vm_compute. reflexivity.
  - vm_compute. reflexivity.
  - vm_compute. discriminate.
  - vm_compute. reflexivity.
  - split; [exact Hact|].
    apply (Hlive [] Scenario.ytAcc1 [Scenario.liAcc1]).
    + vm_compute. reflexivity.
    + intros x Hx. apply list_elem_of_In in Hx. destruct Hx as [<-|[]].
      discriminate.
    + vm_compute. reflexivity.
Defined.

(** ** The registry: removing, and adding then removing *)

Lemma filter_none_same p a ds :
  countIdentity p a ds = 0%nat ->
  List.filter (fun d => negb (sameIdentity p a d)) ds = ds.
Proof.
  unfold countIdentity. induction ds as [|x ds IH]; [done|].
  cbn [List.filter]. destruct (sameIdentity p a x); cbn; [done|].
  intros H. by rewrite IH.
Qed.

Lemma count_after_remove p a ds :
  countIdentity p a (List.filter (fun d => negb (sameIdentity p a d)) ds) = 0%nat.
Proof.
  unfold countIdentity. induction ds as [|x ds IH]; [done|].
  cbn [List.filter]. destruct (sameIdentity p a x) eqn:Hx; cbn [negb]; [done|].
  cbn [List.filter]. by rewrite Hx.
Qed.

(** X6.  With the store writable, [removeDestination] called while no
    session is active, or while the platform's slot holds no stream id,
    resolves: no record of that identity is left, the other records keep
    their order, the shortened list is what the store holds under
    [stream_destinations], a registry without the identity is left as it
    was, and neither the status nor the platforms are touched. *)
Theorem X6_remove_without_stop p a w :
  kvFault (env w) (KvSet "stream_destinations") = None ->
  isActive (currentStatus w) = false \/
    truthyOpt (platformStreamId p (currentStatus w)) = false ->
  let w' := snd (removeDestination p a w) in
  fst (removeDestination p a w) = Resolved tt /\
  destinations w' = List.filter (fun d => negb (sameIdentity p a d)) (destinations w) /\
  countIdentity p a (destinations w') = 0%nat /\
  (countIdentity p a (destinations w) = 0%nat -> destinations w' = destinations w) /\
  store w' !! "stream_destinations" = Some (SvDestinations (destinations w')) /\
  currentStatus w' = currentStatus w /\
  apiLog w' = apiLog w.
Proof.
  intros Hkv Hcond w'.
  assert (Hrun : removeDestination p a w =
    (Resolved tt,
     elapse (setStore (<["stream_destinations" :=
                SvDestinations (List.filter (fun d => negb (sameIdentity p a d)) (destinations w))]>
                (store w))
             (setDestinations (List.filter (fun d => negb (sameIdentity p a d)) (destinations w)) w)))).
  { unfold removeDestination, saveData. run_async. rewrite Hkv. cbn.
    destruct Hcond as [Hin|Hid].
    - by rewrite Hin.
    - destruct (isActive (currentStatus w)); cbn; [|done].
      destruct (bool_decide _); cbn; [|done].
      destruct p; rewrite Hid; done. }
  subst w'. rewrite Hrun. cbn [fst snd].
  cbn [destinations store currentStatus apiLog elapse setStore setDestinations].
  rewrite lookup_insert_eq.
  split; [done|]. split; [done|]. split; [apply count_after_remove|].
  split; [apply filter_none_same|]. done.
Qed.

Lemma X6_remove_without_stop_witness :
  destinations (snd (removeDestination youtube "acc1"
                       (Scenario.readyWorld Scenario.apiAllOk))) =
  List.filter (fun d => negb (sameIdentity youtube "acc1" d))
    (destinations (Scenario.readyWorld Scenario.apiAllOk)).
Proof.
  destruct (X6_remove_without_stop youtube "acc1"
              (Scenario.readyWorld Scenario.apiAllOk)) as (_ & H & _).
  - vm_compute. reflexivity.
  - left. vm_compute. reflexivity.
  - exact H.
Defined.

(** X7.  Adding a destination whose identity the registry does not hold and
    then removing that identity gives back the registry as it was, whatever
    the store and the platforms do meanwhile. *)
Theorem X7_add_then_remove d w :
  countIdentity (platform d) (accountId d) (destinations w) = 0%nat ->
  destinations (snd (removeDestination (platform d) (accountId d)
                       (snd (addDestination d w)))) = destinations w.
Proof.
  intros Hnew.
  destruct (addDestination_frame d w) as (_ & _ & Hadd).
  destruct (removeDestination_frame (platform d) (accountId d) (snd (addDestination d w)))
    as (_ & _ & Hrem & _).
  rewrite Hrem, Hadd. clear Hadd Hrem.
  unfold countIdentity in Hnew.
  induction (destinations w) as [|x ds IH].
  - cbn. by rewrite sameIdentity_self.
  - rewrite upsert_cons. cbn [List.filter] in Hnew.
    destruct (sameIdentity (platform d) (accountId d) x) eqn:Hx; [done|].
    cbn [List.filter]. rewrite Hx. cbn [negb]. by rewrite IH.
Qed.

Lemma X7_add_then_remove_witness :
  destinations (snd (removeDestination linkedin "acc1"
                       (snd (addDestination Scenario.liAcc1
                               (Scenario.freshWorld Scenario.apiAllOk))))) =
  destinations (Scenario.freshWorld Scenario.apiAllOk).
Proof.
  apply (X7_add_then_remove Scenario.liAcc1 (Scenario.freshWorld Scenario.apiAllOk)).
  vm_compute. reflexivity.
Defined.

(** ** Persistence *)

(** X8.  A configuration set and a destination added while the store takes
    the writes are what a later load of the module over that store, with
    the reads served, restores: [initialize] gives back the same
    configuration and the same registry. *)
Theorem X8_restart_restores w c d now e :
  kvFault (env w) (KvSet "relay_config") = None ->
  kvFault (env w) (KvSet "stream_destinations") = None ->
  kvFault e (KvGet "relay_config") = None ->
  kvFault e (KvGet "stream_destinations") = None ->
  let w1 := snd (addDestination d (snd (configureRelay c w))) in
  let w' := snd (initialize (moduleLoad (store w1) now e)) in
  currentConfig w1 = Some c /\
  destinations w1 = upsertDestination d (destinations w) /\
  currentConfig w' = Some c /\
  destinations w' = destinations w1.
Proof.
  intros Hs1 Hs2 Hg1 Hg2 w1 w'.
  assert (H1 : currentConfig w1 = Some c /\
               destinations w1 = upsertDestination d (destinations w) /\
               store w1 !! "relay_config" = Some (SvConfig c) /\
               store w1 !! "stream_destinations" =
                 Some (SvDestinations (upsertDestination d (destinations w)))).
  { subst w1. unfold addDestination, configureRelay, saveData. run_async.
    rewrite Hs1. cbn. rewrite Hs2. cbn.
    rewrite lookup_insert_eq, lookup_insert_ne by done.
    by rewrite lookup_insert_eq. }
  destruct H1 as (Hc1 & Hd1 & Hk1 & Hk2).
  split; [done|]. split; [done|]. rewrite Hd1.
  subst w'. generalize dependent (store w1). intros st Hk1 Hk2.
  unfold initialize, getData, saveData, moduleLoad. run_async.
  rewrite Hg1. cbn. rewrite Hk1. cbn. rewrite Hg2. cbn. rewrite Hk2. cbn.
  split_matches; simplify_eq; cbn; done.
Qed.

Lemma X8_restart_restores_witness :
  currentConfig
    (snd (initialize
       (moduleLoad
          (store (snd (addDestination Scenario.ytAcc1
                    (snd (configureRelay Scenario.config720
                            (Scenario.freshWorld Scenario.apiAllOk))))))
          9000 (Scenario.envOf Scenario.apiAllOk)))) = Some Scenario.config720.
Proof.
  destruct (X8_restart_restores (Scenario.freshWorld Scenario.apiAllOk)
              Scenario.config720 Scenario.ytAcc1 9000
              (Scenario.envOf Scenario.apiAllOk)) as (_ & _ & H & _).
  - reflexivity.
  - reflexivity.
  - reflexivity.
  - reflexivity.
  - exact H.
Defined.

Lemma startStream_store_other settings w key :
  key <> "stream_status" ->
  store (snd (startStream settings w)) !! key = store w !! key.
Proof.
  intros Hkey.
  destruct (isActive (currentStatus w)) eqn:Hact.
  { by rewrite startStream_alreadyActive. }
  destruct (currentConfig w) as [cfg|] eqn:Hcfg.
  2:{ by rewrite startStream_notConfigured. }
  destruct (destinations w) as [|d0 ds] eqn:Hds.
  { by rewrite (startStream_noDestinations settings w cfg). }
  destruct (startLoop_spec settings (List.filter enabled (destinations w)) (startedWorld w))
    as (calls & wl & Hloop & Hsame & _).
  assert (Hne : destinations w <> []) by (by rewrite Hds).
  rewrite (startStream_accepted settings w cfg wl Hact Hcfg Hne Hloop).
  destruct Hsame as (_ & _ & _ & Hst & _). cbn in Hst.
  cbn zeta. destruct (kvFault (env wl) (KvSet "stream_status")); cbn; rewrite Hst; [done|].
  by rewrite lookup_insert_ne.
Qed.

Lemma stopStream_store_other w key :
  key <> "stream_status" ->
  store (snd (stopStream w)) !! key = store w !! key.
Proof.
  intros Hkey.
  unfold stopStream, saveData, stopPlatformStream, stopBranch.
  run_async; split_matches; simplify_eq; cbn in *; try done;
    by rewrite lookup_insert_ne.
Qed.

Lemma initialize_registry w :
  (destinations (snd (initialize w)) = destinations w \/
   store w !! "stream_destinations" =
     Some (SvDestinations (destinations (snd (initialize w))))) /\
  store (snd (initialize w)) !! "stream_destinations" =
    store w !! "stream_destinations".
Proof.
  unfold initialize, saveData, getData.
  run_async; split_matches; simplify_eq; cbn in *; split; auto;
    by rewrite lookup_insert_ne.
Qed.

Lemma removeDestination_store p a w :
  store (snd (removeDestination p a w)) !! "stream_destinations" =
    store w !! "stream_destinations" \/
  store (snd (removeDestination p a w)) !! "stream_destinations" =
    Some (SvDestinations (List.filter (fun d => negb (sameIdentity p a d)) (destinations w))).
Proof.
  unfold removeDestination, saveData, stopPlatformStream, stopBranch.
  destruct p; run_async; split_matches; simplify_eq; cbn;
    rewrite ?lookup_insert_eq; auto.
Qed.

Lemma addDestination_store d w :
  store (snd (addDestination d w)) !! "stream_destinations" =
    store w !! "stream_destinations" \/
  store (snd (addDestination d w)) !! "stream_destinations" =
    Some (SvDestinations (upsertDestination d (destinations w))).
Proof.
  unfold addDestination, saveData.
  run_async; split_matches; simplify_eq; cbn; rewrite ?lookup_insert_eq; auto.
Qed.

Lemma configureRelay_store c w :
  store (snd (configureRelay c w)) !! "stream_destinations" =
    store w !! "stream_destinations".
Proof.
  unfold configureRelay, saveData.
  run_async; split_matches; simplify_eq; cbn; [done|].
  by rewrite lookup_insert_ne.
Qed.

(** X9.  Every exported operation, and [initialize], whether it resolves or
    rejects, keeps the registry free of duplicate identities, in memory and
    in the persisted list, if it was so before. *)
Theorem X9_registry_invariant o w :
  registryInv w -> registryInv (snd (runOp o w)).
Proof.
  intros [Hmem Hsto]. unfold registryInv. destruct o; cbn [runOp].
  - destruct (initialize_registry w) as [[Hd|Hd] Hs]; rewrite Hs.
    + by rewrite Hd.
    + split; [by apply Hsto|done].
  - destruct (configureRelay_frame config w) as (_ & Hd & _).
    by rewrite Hd, configureRelay_store.
  - destruct (addDestination_frame destination w) as (_ & _ & Hd).
    rewrite Hd. split; [by apply unique_upsert|].
    destruct (addDestination_store destination w) as [Hs|Hs]; rewrite Hs; [done|].
    intros ds [= <-]. by apply unique_upsert.
  - destruct (removeDestination_frame p account w) as (_ & _ & Hd & _).
    rewrite Hd. split; [by apply unique_remove|].
    destruct (removeDestination_store p account w) as [Hs|Hs]; rewrite Hs; [done|].
    intros ds [= <-]. by apply unique_remove.
  - destruct (startStream_frame settings w) as (_ & Hd & _).
    by rewrite Hd, startStream_store_other.
  - destruct (stopStream_frame w) as (_ & Hd & _).
    by rewrite Hd, stopStream_store_other.
Qed.

Lemma X9_registry_invariant_witness :
  registryInv (snd (runOp (OpAdd Scenario.ytAcc1)
                      (Scenario.freshWorld Scenario.apiAllOk))).
Proof.
  apply (X9_registry_invariant (OpAdd Scenario.ytAcc1)
           (Scenario.freshWorld Scenario.apiAllOk)).
  split.
  - apply unique_nil.
  - intros ds H. vm_compute in H. discriminate H.
Defined.

(** ** Reachable worlds *)

Lemma stopStream_started w :
  isActive (currentStatus (snd (stopStream w))) = true ->
  isActive (currentStatus w) = true /\
  startedAt (currentStatus (snd (stopStream w))) = startedAt (currentStatus w).
Proof.
  unfold stopStream, saveData, stopPlatformStream, stopBranch.
  run_async; split_matches; simplify_eq; cbn in *; try done; try congruence; auto.
Qed.

Lemma removeDestination_started p a w :
  startedAt (currentStatus (snd (removeDestination p a w))) = startedAt (currentStatus w).
Proof.
  unfold removeDestination, saveData, stopPlatformStream, stopBranch.
  destruct p; run_async; split_matches; simplify_eq; cbn; done.
Qed.

Lemma startStream_started settings w :
  isActive (currentStatus (snd (startStream settings w))) = true ->
  (isActive (currentStatus w) = true /\
   startedAt (currentStatus (snd (startStream settings w))) = startedAt (currentStatus w)) \/
  is_Some (startedAt (currentStatus (snd (startStream settings w)))).
Proof.
  destruct (isActive (currentStatus w)) eqn:Hact.
  { rewrite startStream_alreadyActive by done. auto. }
  destruct (currentConfig w) as [cfg|] eqn:Hcfg.
  2:{ by rewrite startStream_notConfigured. }
  destruct (destinations w) as [|d0 ds] eqn:Hds.
  { by rewrite (startStream_noDestinations settings w cfg). }
  destruct (startLoop_spec settings (List.filter enabled (destinations w)) (startedWorld w))
    as (calls & wl & Hloop & Hsame & _).
  assert (Hne : destinations w <> []) by (by rewrite Hds).
  rewrite (startStream_accepted settings w cfg wl Hact Hcfg Hne Hloop).
  destruct Hsame as (_ & _ & _ & _ & _ & _ & Hst & _). cbn in Hst.
  cbn zeta. destruct (kvFault (env wl) (KvSet "stream_status")); cbn; [done|].
  intros _. right. by rewrite Hst.
Qed.

(** X10.  In every world the controller can be in, an active session has a
    start time and a configuration: the status never says active without
    [startedAt], whatever was persisted, failed or removed on the way. *)
Theorem X10_active_session_has_start w :
  Reachable w ->
  isActive (currentStatus w) = true ->
  is_Some (startedAt (currentStatus w)) /\ is_Some (currentConfig w).
Proof.
  intros Hreach Hact. split.
  2:{ pose proof (active_configured w Hreach Hact).
      by destruct (currentConfig w). }
  revert Hact.
  induction Hreach as [persisted now e | o w Hw IH | now e w Hw IH]; cbn.
  - discriminate.
  - destruct o; cbn [runOp]; intros Hact.
    + destruct (initialize_frame w) as [_ [Hs|Hs]]; [|congruence].
      rewrite Hs in *. auto.
    + destruct (configureRelay_frame config w) as (Hs & _).
      rewrite Hs in *. auto.
    + destruct (addDestination_frame destination w) as (Hs & _).
      rewrite Hs in *. auto.
    + destruct (removeDestination_frame p account w) as (_ & Hs & _).
      rewrite removeDestination_started. apply IH. by rewrite <- Hs.
    + destruct (startStream_started settings w Hact) as [[Ha ->]|?]; auto.
    + destruct (stopStream_started w Hact) as [Ha ->]. auto.
  - exact IH.
Qed.

Lemma X10_active_session_has_start_witness :
  is_Some (startedAt (currentStatus Scenario.streamingWorld)) /\
  is_Some (currentConfig Scenario.streamingWorld).
Proof.
  apply (X10_active_session_has_start Scenario.streamingWorld).
  - unfold Scenario.streamingWorld, Scenario.readyWorld, Scenario.freshWorld.
    apply afterOps_reachable, afterOps_reachable, reach_load.
  - vm_compute. reflexivity.
Defined.

(** ** A resolved stop *)

(** X11.  When [stopStream], called on an active session started at [t0],
    resolves: the duration recorded is the whole number of seconds between
    [t0] and the moment the last platform was stopped, which is not before
    the call began (so the duration is not negative if [t0] is not in the
    future); the session is inactive, no platform is marked as streaming,
    the relay process is cleared, and the store holds this status. *)
Theorem X11_stop_resolved_outcome w t0 :
  isActive (currentStatus w) = true ->
  startedAt (currentStatus w) = Some t0 ->
  fst (stopStream w) = Resolved tt ->
  let w' := snd (stopStream w) in
  exists endTime,
    duration (currentStatus w') = Some ((endTime - t0) / 1000) /\
    (0 <= latency (env w) -> clock w <= endTime) /\
    (0 <= latency (env w) -> t0 <= clock w -> 0 <= (endTime - t0) / 1000) /\
    isActive (currentStatus w') = false /\
    platformStreaming youtube (currentStatus w') = false /\
    platformStreaming linkedin (currentStatus w') = false /\
    streamProcessId w' = None /\
    store w' !! "stream_status" = Some (SvStatus (currentStatus w')).
Proof.
  intros Hact Ht0.
  unfold stopStream, saveData, stopPlatformStream, stopBranch, platformStreaming.
  run_async. rewrite Hact. cbn.
  split_matches; simplify_eq; cbn in *; try done; intros _;
    rewrite ?Ht0 in *; simplify_eq; cbn;
    (eexists; split; [reflexivity|]);
    rewrite ?lookup_insert_eq;
    repeat split; auto; try congruence; try lia;
    intros; apply Z.div_pos; lia.
Qed.

Lemma X11_stop_resolved_outcome_witness :
  platformStreaming youtube
    (currentStatus (snd (stopStream Scenario.streamingWorld))) = false /\
  platformStreaming linkedin
    (currentStatus (snd (stopStream Scenario.streamingWorld))) = false.
Proof.
  destruct (X11_stop_resolved_outcome Scenario.streamingWorld 1015)
    as (endTime & _ & _ & _ & _ & Hy & Hl & _).
  - vm_compute. reflexivity.
  - vm_compute. reflexivity.
  - vm_compute. reflexivity.
  - split; [exact Hy | exact Hl].
Defined.

End RelayLifecycle.

(** * Further properties of the account store *)

Module AccountStoreFacts.
Import StateManager StateManagerFacts StoreFaults.

#[local] Arguments String.append !s1 s2.

Ltac sm_cbn :=
  cbn -[generateCacheKey accountKey platformPrefix ACCOUNTS_PREFIX DEFAULT_CACHE_TTL].

(** ** The ordered key-value backend *)

Lemma string_compare_refl s : String.compare s s = Eq.
Proof.
  pose proof (String.compare_antisym s s) as H.
  destruct (String.compare s s); cbn in H; congruence.
Qed.

Lemma keyCompare_refl k : keyCompare k k = Eq.
Proof. induction k as [|x k IH]; cbn; [done|]. by rewrite string_compare_refl. Qed.

Lemma kvLookup_insert k v l : kvLookup k (kvInsert k v l) = Some v.
Proof.
  induction l as [|[k' v'] l IH]; cbn.
  - by rewrite keyCompare_refl.
  - destruct (keyCompare k k') eqn:Hk; cbn; rewrite ?keyCompare_refl; try done.
    by rewrite Hk.
Qed.

Lemma kvLookup_remove k l : kvLookup k (kvRemove k l) = None.
Proof.
  unfold kvRemove. induction l as [|[k' v'] l IH]; [done|].
  cbn. destruct (keyCompare k k') eqn:Hk; cbn; rewrite ?Hk; done.
Qed.

Lemma kvInsert_In k v l : In (k, v) (kvInsert k v l).
Proof.
  induction l as [|[k' v'] l IH]; cbn; [by left|].
  destruct (keyCompare k k'); cbn; auto.
Qed.

(** ** Reading back what was written *)

(** X12.  With the backend up, an account that [saveAccount] has stored is
    what [getAccount] returns for its platform and id at any later time,
    whatever the cache held before: the save clears the account's cache
    entry, so the read goes to the store. *)
Theorem X12_save_then_get a m dt :
  kvError m = None ->
  fst (getAccount (platform a) (id a) (advance dt (snd (saveAccount a m)))) =
    Resolved (Some a).
Proof.
  intros Hup.
  destruct (saveAccount_cache a m Hup) as (_ & Hkv & Hnow & Hup' & Hc & _).
  cbn zeta in *. set (m' := snd (saveAccount a m)) in *.
  assert (Hx : cacheExpiry m' !! generateCacheKey (accountKey (platform a) (id a)) = None).
  { subst m'. unfold saveAccount; run_sm. rewrite Hup.
    cbn -[generateCacheKey accountKey platformPrefix ACCOUNTS_PREFIX].
    destruct (decide (generateCacheKey ACCOUNTS_PREFIX =
                      generateCacheKey (accountKey (platform a) (id a)))) as [->|Hne].
    - apply lookup_delete_eq.
    - rewrite lookup_delete_ne by done. apply lookup_delete_eq. }
  clearbody m'.
  unfold getAccount; run_sm.
  repeat (progress (rewrite ?Hx, ?Hup', ?Hkv, ?kvLookup_insert;
                    cbn -[generateCacheKey accountKey platformPrefix ACCOUNTS_PREFIX])).
  done.
Qed.

Lemma X12_save_then_get_witness :
  fst (getAccount youtube "id1"
         (advance 5 (snd (saveAccount Scenario.account1 Scenario.listedManager)))) =
    Resolved (Some Scenario.account1).
Proof.
  apply (X12_save_then_get Scenario.account1 Scenario.listedManager 5).
  vm_compute. reflexivity.
Defined.

(** X13.  An account read from the store is cached for five minutes.  If
    the backend then goes down, [getAccount] still returns the account, and
    changes nothing, as long as less than the time to live has passed; from
    the time to live on it rejects with the wrapped backend message, and
    the expired entry is gone from the cache. *)
Theorem X13_cached_account_outlives_backend p ident a m dt msg :
  kvError m = None ->
  cacheExpiry m !! generateCacheKey (accountKey p ident) = None ->
  kvLookup (accountKey p ident) (kv m) = Some a ->
  0 <= now m ->
  0 <= dt ->
  let m1 := withKvError (Some msg) (advance dt (snd (getAccount p ident m))) in
  fst (getAccount p ident m) = Resolved (Some a) /\
  (dt < DEFAULT_CACHE_TTL ->
   getAccount p ident m1 = (Resolved (Some a), m1)) /\
  (DEFAULT_CACHE_TTL <= dt ->
   fst (getAccount p ident m1) =
     Rejected (JsError ("Failed to get account: " ++ msg)) /\
   cache (snd (getAccount p ident m1)) !! generateCacheKey (accountKey p ident) = None).
Proof.
  intros Hup Hx Hkv Hnow Hdt m1.
  assert (Hrun : getAccount p ident m =
    (Resolved (Some a),
     setCache (<[generateCacheKey (accountKey p ident) := CvAccount a]> (cache m))
              (<[generateCacheKey (accountKey p ident) := now m + DEFAULT_CACHE_TTL]>
                 (cacheExpiry m)) m)).
  { unfold getAccount; run_sm. rewrite Hx. sm_cbn. rewrite Hup. sm_cbn.
    rewrite Hkv. done. }
  subst m1. rewrite Hrun. cbn [fst snd]. split; [done|].
  assert (Httl : 0 < DEFAULT_CACHE_TTL) by done.
  split.
  - intros Hlt. unfold getAccount; run_sm. rewrite (lookup_insert_eq (cacheExpiry m)).
    assert (H1 : (now m + DEFAULT_CACHE_TTL =? 0) = false) by (apply Z.eqb_neq; lia).
    assert (H2 : (now m + dt <? now m + DEFAULT_CACHE_TTL) = true) by (apply Z.ltb_lt; lia).
    rewrite H1, H2. sm_cbn. rewrite (lookup_insert_eq (cache m)). done.
  - intros Hge. unfold getAccount; run_sm. rewrite (lookup_insert_eq (cacheExpiry m)).
    assert (H1 : (now m + DEFAULT_CACHE_TTL =? 0) = false) by (apply Z.eqb_neq; lia).
    assert (H2 : (now m + dt <? now m + DEFAULT_CACHE_TTL) = false) by (apply Z.ltb_ge; lia).
    rewrite H1, H2. sm_cbn.
    rewrite (lookup_delete_eq
               (<[generateCacheKey (accountKey p ident):=CvAccount a]> (cache m))).
    done.
Qed.

Lemma X13_cached_account_outlives_backend_witness :
  fst (getAccount youtube "id1" Cases.oneAccountManager) =
    Resolved (Some Scenario.account1).
Proof.
  destruct (X13_cached_account_outlives_backend youtube "id1" Scenario.account1
              Cases.oneAccountManager 1000 "backend down") as (H & _).
  - vm_compute. reflexivity.
  - vm_compute. reflexivity.
  - vm_compute. reflexivity.
  - vm_compute. discriminate.
  - vm_compute. discriminate.
  - exact H.
Defined.

(** X14.  With the backend up, after [deleteAccount] every reader answers
    from the store without the deleted key, at any later time and whatever
    was cached before: [getAccount] finds nothing, and both list readers
    return the stored accounts that remain. *)
Theorem X14_delete_then_reads p ident m dt :
  kvError m = None ->
  let m' := advance dt (snd (deleteAccount p ident m)) in
  fst (deleteAccount p ident m) = Resolved tt /\
  fst (getAccount p ident m') = Resolved None /\
  fst (getAccountsByPlatform p m') =
    Resolved (storedUnder (platformPrefix p) (kvRemove (accountKey p ident) (kv m))) /\
  fst (getAllAccounts m') =
    Resolved (storedUnder ACCOUNTS_PREFIX (kvRemove (accountKey p ident) (kv m))).
Proof.
  intros Hup m'.
  assert (Hrun : deleteAccount p ident m =
    (Resolved tt,
     setCache
       (delete (generateCacheKey (platformPrefix p))
          (delete (generateCacheKey ACCOUNTS_PREFIX)
             (delete (generateCacheKey (accountKey p ident)) (cache m))))
       (delete (generateCacheKey (platformPrefix p))
          (delete (generateCacheKey ACCOUNTS_PREFIX)
             (delete (generateCacheKey (accountKey p ident)) (cacheExpiry m))))
       (setKv (kvRemove (accountKey p ident) (kv m)) m))).
  { unfold deleteAccount; run_sm. rewrite Hup. done. }
  subst m'. rewrite Hrun. cbn [fst snd]. split; [done|].
  set (x := delete _ (delete _ (delete _ (cacheExpiry m)))).
  assert (H1 : x !! generateCacheKey (accountKey p ident) = None).
  { subst x. apply lookup_delete_None. right. apply lookup_delete_None. right.
    apply lookup_delete_eq. }
  assert (H2 : x !! generateCacheKey ACCOUNTS_PREFIX = None).
  { subst x. apply lookup_delete_None. right. apply lookup_delete_eq. }
  assert (H3 : x !! generateCacheKey (platformPrefix p) = None).
  { subst x. apply lookup_delete_eq. }
  clearbody x.
  repeat split.
  - unfold getAccount; run_sm. rewrite H1. sm_cbn. rewrite Hup. sm_cbn.
    by rewrite kvLookup_remove.
  - unfold getAccountsByPlatform; run_sm. rewrite H3. sm_cbn. rewrite Hup. done.
  - unfold getAllAccounts; run_sm. rewrite H2. sm_cbn. rewrite Hup. done.
Qed.

Lemma X14_delete_then_reads_witness :
  fst (getAccountsByPlatform youtube
         (advance 1000 (snd (deleteAccount youtube "id1" Scenario.savedManager)))) =
    Resolved [].
Proof.
  destruct (X14_delete_then_reads youtube "id1" Scenario.savedManager 1000)
    as (_ & _ & H & _).
  - vm_compute. reflexivity.
  - rewrite H. vm_compute. reflexivity.
Defined.

(** X15.  With the backend up, after [saveAccount] the list of all accounts
    is read from the store, at any later time and whatever was cached
    before, and holds the saved account. *)
Theorem X15_save_then_list_all a m dt :
  kvError m = None ->
  let m' := advance dt (snd (saveAccount a m)) in
  fst (getAllAccounts m') =
    Resolved (storedUnder ACCOUNTS_PREFIX
                (kvInsert (accountKey (platform a) (id a)) a (kv m))) /\
  In a (storedUnder ACCOUNTS_PREFIX
          (kvInsert (accountKey (platform a) (id a)) a (kv m))).
Proof.
  intros Hup m'.
  assert (Hrun : saveAccount a m =
    (Resolved tt,
     setCache
       (delete (generateCacheKey ACCOUNTS_PREFIX)
          (delete (generateCacheKey (accountKey (platform a) (id a))) (cache m)))
       (delete (generateCacheKey ACCOUNTS_PREFIX)
          (delete (generateCacheKey (accountKey (platform a) (id a))) (cacheExpiry m)))
       (setKv (kvInsert (accountKey (platform a) (id a)) a (kv m)) m))).
  { unfold saveAccount; run_sm. rewrite Hup. done. }
  subst m'. rewrite Hrun. cbn [fst snd]. split.
  - unfold getAllAccounts; run_sm.
    rewrite (lookup_delete_eq (delete _ (cacheExpiry m))). sm_cbn. rewrite Hup. done.
  - unfold storedUnder. apply in_map_iff. exists (accountKey (platform a) (id a), a).
    split; [done|]. apply filter_In. split; [apply kvInsert_In|].
    reflexivity.
Qed.

Lemma X15_save_then_list_all_witness :
  fst (getAllAccounts
         (advance 10 (snd (saveAccount Cases.account2 Cases.oneAccountManager)))) =
    Resolved [Cases.account2; Scenario.account1].
Proof.
  destruct (X15_save_then_list_all Cases.account2 Cases.oneAccountManager 10)
    as (H & _).
  - vm_compute. reflexivity.
  - rewrite H. vm_compute. reflexivity.
Defined.

(** ** Cache keys *)

Lemma string_app_assoc (a b c : string) : ((a ++ b) ++ c = a ++ (b ++ c))%string.
Proof. induction a as [|x a IH]; simpl; [done|]. by f_equal. Qed.

Lemma unescapeHead_escapeChar c r :
  unescapeHead (escapeChar c ++ r) = Some (c, r).
Proof. destruct c as [[] [] [] [] [] [] [] []]; reflexivity. Qed.

Lemma unescapeHead_quote r : unescapeHead (dquote ++ r) = None.
Proof. reflexivity. Qed.

(** Escaped text holds no bare quote: what precedes the first bare quote
    determines the string that was escaped. *)
Lemma jsonEscape_inj a : forall b r r',
  (jsonEscape a ++ dquote ++ r = jsonEscape b ++ dquote ++ r')%string -> a = b.
Proof.
  induction a as [|c a IH]; intros [|c' b] r r'; cbn [jsonEscape]; intros H.
  - done.
  - apply (f_equal unescapeHead) in H.
    rewrite string_app_assoc, unescapeHead_escapeChar in H.
    change ("" ++ dquote ++ r)%string with (dquote ++ r)%string in H.
    by rewrite unescapeHead_quote in H.
  - apply (f_equal unescapeHead) in H.
    rewrite string_app_assoc, unescapeHead_escapeChar in H.
    change ("" ++ dquote ++ r')%string with (dquote ++ r')%string in H.
    by rewrite unescapeHead_quote in H.
  - apply (f_equal unescapeHead) in H.
    rewrite !string_app_assoc, !unescapeHead_escapeChar in H.
    injection H as -> Ht. f_equal. exact (IH b r r' Ht).
Qed.

Lemma account_cache_key_inj p ident p' ident' :
  generateCacheKey (accountKey p ident) = generateCacheKey (accountKey p' ident') ->
  p = p' /\ ident = ident'.
Proof.
  unfold generateCacheKey, accountKey, jsonString, ACCOUNTS_PREFIX.
  cbn [List.map app String.concat].
  change (jsonEscape "accounts") with "accounts".
  replace (jsonEscape (platformKey p)) with (platformKey p) by (by destruct p).
  replace (jsonEscape (platformKey p')) with (platformKey p') by (by destruct p').
  rewrite !string_app_assoc.
  destruct p, p'; cbn [platformKey String.append dquote]; intros H;
    simplify_eq; (split; [done|]);
    eapply (jsonEscape_inj ident ident' "]" "]"); exact H.
Qed.

(** X16.  Two accounts that differ in platform or in id have different
    cache keys, whatever characters the ids hold (quotes, backslashes and
    control characters included): the cache never serves one account under
    the key of another. *)
Theorem X16_account_cache_keys_distinct p ident p' ident' :
  p <> p' \/ ident <> ident' ->
  generateCacheKey (accountKey p ident) <> generateCacheKey (accountKey p' ident').
Proof.
  intros Hne Heq. apply account_cache_key_inj in Heq as [Hp Hi].
  destruct Hne; contradiction.
Qed.

Lemma X16_account_cache_keys_distinct_witness :
  generateCacheKey (accountKey youtube (String (Ascii.ascii_of_nat 9) "")) <>
  generateCacheKey (accountKey youtube (String (Ascii.ascii_of_nat 92) "t")).
Proof.
  apply (X16_account_cache_keys_distinct youtube (String (Ascii.ascii_of_nat 9) "")
           youtube (String (Ascii.ascii_of_nat 92) "t")).
  right. discriminate.
Defined.

End AccountStoreFacts.

(** * Properties of the scheduled events *)

Module EventFacts.
Import Events.

Ltac ev_cbn :=
  cbn -[StateManager.generateCacheKey eventKey SCHEDULED_EVENTS_PREFIX
        StateManager.DEFAULT_CACHE_TTL sortByStart slice upcoming].

Ltac run_ev :=
  unfold kv_set, kv_get, kv_list, kv_delete, getCachedValue, setCachedValue,
    clearCacheKey, rethrow;
  unfold tryCatch, bind, ret, throw, gets, modify, backend;
  ev_cbn.

(** ** Sorting and slicing *)

Lemma insertByStart_perm x l : Permutation (insertByStart x l) (x :: l).
Proof.
  induction l as [|y l IH]; cbn; [done|].
  destruct (_ <=? _); [done|]. rewrite IH. apply perm_swap.
Qed.

Lemma sortByStart_perm l : Permutation (sortByStart l) l.
Proof.
  induction l as [|x l IH]; cbn; [done|].
  rewrite insertByStart_perm. by constructor.
Qed.

Lemma insertByStart_sorted x l :
  StronglySorted byStart l -> StronglySorted byStart (insertByStart x l).
Proof.
  induction 1 as [|y l Hl IH Hy]; cbn.
  - repeat constructor.
  - destruct (scheduledStartTime x <=? scheduledStartTime y) eqn:Hxy.
    + apply Z.leb_le in Hxy. constructor; [by constructor|].
      constructor; [done|]. eapply Forall_impl; [exact Hy|].
      unfold byStart. intros; lia.
    + apply Z.leb_gt in Hxy. constructor; [done|].
      rewrite insertByStart_perm. constructor; [|done].
      unfold byStart. lia.
Qed.

Lemma sortByStart_sorted l : StronglySorted byStart (sortByStart l).
Proof.
  induction l as [|x l IH]; cbn; [constructor|]. by apply insertByStart_sorted.
Qed.

Lemma take_sorted {A} (R : A -> A -> Prop) n l :
  StronglySorted R l -> StronglySorted R (take n l).
Proof.
  intros H. revert n. induction H as [|x l Hl IH Hx]; intros [|n]; cbn;
    try constructor; auto.
  by apply Forall_take.
Qed.

Lemma slice0_take {A} n (l : list A) :
  slice 0 n l =
  take (Z.to_nat (if n <? 0 then Z.max (Z.of_nat (length l) + n) 0
                  else Z.min n (Z.of_nat (length l)))) l.
Proof.
  unfold slice. cbn [Z.ltb Z.compare].
  replace (Z.min 0 (Z.of_nat (length l))) with 0 by lia.
  cbn [Z.to_nat drop]. by rewrite Z.sub_0_r.
Qed.

Lemma limited_sublist limit l : exists n, limited limit l = take n l.
Proof.
  destruct limit as [n|]; cbn.
  - destruct (n =? 0).
    + exists (length l). by rewrite firstn_all.
    + rewrite slice0_take. eauto.
  - exists (length l). by rewrite firstn_all.
Qed.

(** ** [getUpcomingEvents] over [getAllScheduledEvents] *)

Lemma getUpcomingEvents_unfold limit m :
  getUpcomingEvents limit m =
  match getAllScheduledEvents m with
  | (Resolved all, m') =>
      (Resolved (limited limit (sortByStart (List.filter (upcoming (now m')) all))), m')
  | (Rejected e, m') =>
      (Rejected (JsError ("Failed to get upcoming events: " ++ errorMessage e)), m')
  end.
Proof.
  unfold getUpcomingEvents, tryCatch at 1, bind at 1.
  destruct (getAllScheduledEvents m) as [[all|e] m']; [|done].
  unfold bind, gets, ret, limited. by destruct limit as [n|]; [destruct (n =? 0)|].
Qed.

Lemma getAllScheduledEvents_now m :
  now (snd (getAllScheduledEvents m)) = now m.
Proof.
  unfold getAllScheduledEvents; run_ev.
  repeat (match goal with
          | |- context [match ?x with _ => _ end] =>
              lazymatch x with
              | context [match _ with _ => _ end] => fail
              | _ => destruct x eqn:?
              end
          end; ev_cbn); done.
Qed.

(** X17.  Whatever the limit, every event [getUpcomingEvents] returns is one
    of the events [getAllScheduledEvents] returns, has status [scheduled]
    and starts strictly after the present moment; and the events come in
    the order of their start times. *)
Theorem X17_upcoming_events_sound limit m l :
  fst (getUpcomingEvents limit m) = Resolved l ->
  exists all,
    fst (getAllScheduledEvents m) = Resolved all /\
    Forall (fun e => In e all /\ status e = scheduled /\
                     now m < scheduledStartTime e) l /\
    StronglySorted byStart l.
Proof.
  rewrite getUpcomingEvents_unfold.
  pose proof (getAllScheduledEvents_now m) as Hnow.
  destruct (getAllScheduledEvents m) as [[all|e] m']; [|done].
  cbn in Hnow. cbn. intros [= <-]. exists all. split; [done|].
  destruct (limited_sublist limit (sortByStart (List.filter (upcoming (now m')) all)))
    as [n ->].
  split.
  - apply Forall_take. rewrite sortByStart_perm.
    apply Forall_forall. intros e He. apply list_elem_of_In, filter_In in He as [Hin Hup].
    unfold upcoming in Hup. apply andb_true_iff in Hup as [Hs Ht].
    apply Z.ltb_lt in Ht. split; [done|]. split; [by destruct (status e)|lia].
  - apply take_sorted, sortByStart_sorted.
Qed.

Lemma X17_upcoming_events_sound_witness :
  exists all,
    fst (getAllScheduledEvents programme) = Resolved all /\
    Forall (fun e => In e all /\ status e = scheduled /\
                     now programme < scheduledStartTime e) [workshop] /\
    StronglySorted byStart [workshop].
Proof.
  apply (X17_upcoming_events_sound (Some 1) programme [workshop]).
  vm_compute. reflexivity.
Defined.

(** X18.  When the list of all events can be read, [getUpcomingEvents]
    without a limit resolves, and so does it with the limit 0, to the same
    list: the scheduled events of the future, each as often as it is in the
    list of all events, none dropped. *)
Theorem X18_upcoming_events_complete m all :
  fst (getAllScheduledEvents m) = Resolved all ->
  exists l,
    fst (getUpcomingEvents None m) = Resolved l /\
    fst (getUpcomingEvents (Some 0) m) = Resolved l /\
    Permutation l (List.filter (upcoming (now m)) all).
Proof.
  rewrite !getUpcomingEvents_unfold.
  pose proof (getAllScheduledEvents_now m) as Hnow.
  destruct (getAllScheduledEvents m) as [[all'|e] m']; [|done].
  cbn in Hnow. cbn. intros [= ->]. eexists. split; [done|]. split; [done|].
  rewrite Hnow. apply sortByStart_perm.
Qed.

Lemma X18_upcoming_events_complete_witness :
  exists l,
    fst (getUpcomingEvents None programme) = Resolved l /\
    fst (getUpcomingEvents (Some 0) programme) = Resolved l /\
    Permutation l
      (List.filter (upcoming (now programme)) [keynote; workshop; retrospective]).
Proof.
  apply (X18_upcoming_events_complete programme
           [keynote; workshop; retrospective]).
  vm_compute. reflexivity.
Defined.

(** X19.  With a limit other than 0, [getUpcomingEvents] resolves whenever
    it does without a limit: a positive limit [n] keeps the first [n]
    events of the unlimited answer (all of them if there are fewer); a
    negative limit [-k] does not fail but drops the last [k] events. *)
Theorem X19_upcoming_events_limit m n full :
  fst (getUpcomingEvents None m) = Resolved full ->
  n <> 0 ->
  exists l,
    fst (getUpcomingEvents (Some n) m) = Resolved l /\
    (0 < n -> l = take (Z.to_nat n) full /\
              length l = Nat.min (Z.to_nat n) (length full)) /\
    (n < 0 -> l = take (length full - Z.to_nat (- n)) full).
Proof.
  rewrite !getUpcomingEvents_unfold.
  destruct (getAllScheduledEvents m) as [[all|e] m']; [|done].
  cbn. intros [= <-] Hn. apply Z.eqb_neq in Hn. rewrite Hn.
  eexists. split; [done|]. rewrite slice0_take. split.
  - intros Hpos. assert (Hlt : (n <? 0) = false) by (apply Z.ltb_ge; lia).
    rewrite Hlt. split.
    + destruct (decide (n <= Z.of_nat (length (sortByStart (List.filter (upcoming (now m')) all))))).
      * by rewrite Z.min_l.
      * rewrite Z.min_r by lia. rewrite Nat2Z.id.
        rewrite firstn_all. symmetry. apply firstn_all2. lia.
    + rewrite length_take. lia.
  - intros Hneg. assert (Hlt : (n <? 0) = true) by (apply Z.ltb_lt; lia).
    rewrite Hlt. f_equal. lia.
Qed.

Lemma X19_upcoming_events_limit_witness :
  fst (getUpcomingEvents (Some (-1)) programme) = Resolved [workshop].
Proof.
  destruct (X19_upcoming_events_limit programme (-1) [workshop; keynote])
    as (l & Hrun & _ & Hneg).
  - vm_compute. reflexivity.
  - discriminate.
  - rewrite Hrun. f_equal. apply Hneg. reflexivity.
Defined.

(** ** Saving, then asking what is to come *)

Lemma kvInsert_event_In k v l : In (k, v) (kvInsert k v l).
Proof.
  induction l as [|[k' v'] l IH]; cbn; [by left|].
  destruct (StateManager.keyCompare k k'); cbn; auto.
Qed.

(** X20.  With the backend up, an event saved with status [scheduled] is
    among the upcoming events at any later moment before its start,
    whatever the cache held: [saveScheduledEvent] clears the cached list,
    so the next reader sees the store. *)
Theorem X20_saved_event_is_upcoming e m dt :
  kvError m = None ->
  status e = scheduled ->
  now m + dt < scheduledStartTime e ->
  exists l,
    fst (getUpcomingEvents None (advance dt (snd (saveScheduledEvent e m)))) =
      Resolved l /\
    In e l.
Proof.
  intros Hup Hst Ht.
  assert (Hrun : saveScheduledEvent e m =
    (Resolved tt,
     setCache
       (delete (StateManager.generateCacheKey SCHEDULED_EVENTS_PREFIX)
          (delete (StateManager.generateCacheKey (eventKey (id e))) (cache m)))
       (delete (StateManager.generateCacheKey SCHEDULED_EVENTS_PREFIX)
          (delete (StateManager.generateCacheKey (eventKey (id e))) (cacheExpiry m)))
       (setKv (kvInsert (eventKey (id e)) e (kv m)) m))).
  { unfold saveScheduledEvent; run_ev. rewrite Hup. done. }
  rewrite Hrun, getUpcomingEvents_unfold. cbn [fst snd].
  unfold getAllScheduledEvents; run_ev.
  rewrite (lookup_delete_eq (delete _ (cacheExpiry m))).
  ev_cbn. rewrite Hup. ev_cbn.
  eexists. split; [reflexivity|].
  apply list_elem_of_In. rewrite sortByStart_perm. apply list_elem_of_In.
  apply filter_In. split.
  - apply in_map_iff. exists (eventKey (id e), e). split; [done|].
    apply filter_In. split; [apply kvInsert_event_In|].
    reflexivity.
  - unfold upcoming. rewrite Hst. cbn. apply Z.ltb_lt. lia.
Qed.

Lemma X20_saved_event_is_upcoming_witness :
  exists l,
    fst (getUpcomingEvents None
           (advance 500 (snd (saveScheduledEvent keynote (emptyManager 1000))))) =
      Resolved l /\
    In keynote l.
Proof.
  apply (X20_saved_event_is_upcoming keynote (emptyManager 1000) 500).
  - reflexivity.
  - reflexivity.
  - reflexivity.
Defined.

(** X21.  With the backend down and no cached list, [getUpcomingEvents]
    rejects and changes nothing; the message of the backend arrives wrapped
    twice, once by [getAllScheduledEvents] and once by
    [getUpcomingEvents]. *)
Theorem X21_upcoming_events_backend_down limit m msg :
  kvError m = Some msg ->
  cacheExpiry m !! StateManager.generateCacheKey SCHEDULED_EVENTS_PREFIX = None ->
  getUpcomingEvents limit m =
    (Rejected (JsError ("Failed to get upcoming events: " ++
                        "Failed to get all scheduled events: " ++ msg)), m).
Proof.
  intros Hdown Hcold. rewrite getUpcomingEvents_unfold.
  unfold getAllScheduledEvents; run_ev. rewrite Hcold.
  ev_cbn. rewrite Hdown. done.
Qed.

Lemma X21_upcoming_events_backend_down_witness :
  fst (getUpcomingEvents None (backendDown "database is locked" programme)) =
    Rejected (JsError ("Failed to get upcoming events: " ++
                       "Failed to get all scheduled events: " ++
                       "database is locked")).
Proof.
  rewrite (X21_upcoming_events_backend_down None
             (backendDown "database is locked" programme) "database is locked").
  - reflexivity.
  - reflexivity.
  - vm_compute. reflexivity.
Defined.

End EventFacts.

(** * Properties of the LinkedIn client *)

Module LinkedInFacts.
Import LinkedIn.

#[local] Arguments String.append !s1 s2.

Ltac li_cbn := cbn -[StateManager.getAccount toString newUrn exceptionMessage].

Ltac li_cbn_all :=
  cbn -[StateManager.getAccount toString newUrn exceptionMessage] in *.

Ltac run_li :=
  unfold createLiveEvent, startLiveEvent, endLiveEvent, registerLiveEvent,
    transitionLiveEvent, getAccount, send, notFound;
  unfold tryCatch, bind, ret, throw;
  li_cbn.

Ltac li_cases :=
  repeat (match goal with
          | |- context [match ?x with _ => _ end] =>
              lazymatch x with
              | context [match _ with _ => _ end] => fail
              | _ => destruct x eqn:?
              end
          end; li_cbn_all);
  simplify_eq.

(** ** URNs *)

Lemma prefix_split p : forall s,
  String.prefix p s = true -> exists r, s = (p ++ r)%string.
Proof.
  induction p as [|c p IH]; intros [|c' s]; cbn; try done.
  - intros _. by exists "".
  - intros _. by exists (String c' s).
  - destruct (Ascii.ascii_dec c c') as [->|]; [|done].
    intros [r ->]%IH. by exists r.
Qed.

Lemma prefix_app p r : String.prefix p (p ++ r) = true.
Proof.
  induction p as [|c p IH]; cbn; [by destruct r|].
  by destruct (Ascii.ascii_dec c c).
Qed.

Lemma substring_all r : String.substring 0 (String.length r) r = r.
Proof. induction r as [|c r IH]; cbn; [done|]. by rewrite IH. Qed.

Lemma substring_after p r :
  String.substring (String.length p)
    (String.length (p ++ r) - String.length p)%nat (p ++ r) = r.
Proof.
  induction p as [|c p IH]; cbn.
  - rewrite Nat.sub_0_r. apply substring_all.
  - exact IH.
Qed.

Lemma replace_at_start p rep s :
  String.prefix p s = true ->
  replace p rep s =
    (rep ++ String.substring (String.length p)
              (String.length s - String.length p)%nat s)%string.
Proof. intros H. destruct s; cbn [replace]; by rewrite H. Qed.

Lemma replace_prefix p r : replace p "" (p ++ r) = r.
Proof.
  rewrite replace_at_start by apply prefix_app. cbn. apply substring_after.
Qed.

Lemma toString_newUrn c ident :
  toString (newUrn c ident) =
    (if String.prefix (urnPrefix c) ident then ident
     else (urnPrefix c ++ ident)%string).
Proof.
  unfold newUrn, toString.
  destruct (String.prefix (urnPrefix c) ident) eqn:Hp; cbn [urnClass urnId]; [|done].
  apply prefix_split in Hp as [r ->]. by rewrite replace_prefix.
Qed.

Lemma toString_prefixed c ident :
  String.prefix (urnPrefix c) (toString (newUrn c ident)) = true.
Proof.
  rewrite toString_newUrn.
  destruct (String.prefix (urnPrefix c) ident) eqn:Hp; [done|]. apply prefix_app.
Qed.

(** X22.  For each of the four URN classes: the string form of a URN built
    from [id] is [id] itself when [id] already starts with the prefix of
    the class, and the prefix followed by [id] otherwise.  So it always
    starts with the prefix, and building a URN from the string form of a
    URN gives the same URN back: the prefix is never doubled. *)
Theorem X22_urn_normal_form c ident :
  toString (newUrn c ident) =
    (if String.prefix (urnPrefix c) ident then ident
     else (urnPrefix c ++ ident)%string) /\
  String.prefix (urnPrefix c) (toString (newUrn c ident)) = true /\
  newUrn c (toString (newUrn c ident)) = newUrn c ident.
Proof.
  split; [apply toString_newUrn|]. split; [apply toString_prefixed|].
  rewrite toString_newUrn. unfold newUrn.
  destruct (String.prefix (urnPrefix c) ident) eqn:Hp.
  - by rewrite Hp.
  - by rewrite prefix_app, replace_prefix.
Qed.

(** ** The client *)

(** X23.  [startLiveEvent], for an account the store returns, sends the
    transition to READY first, with the account's token and the live-video
    URN of the event; it sends the transition to PUBLISHED only when READY
    was answered OK, and resolves exactly when both were.  If READY fails,
    nothing else is sent and the call rejects. *)
Theorem X23_start_live_event_protocol accountId eventId a s :
  fst (StateManager.getAccount StateManager.linkedin accountId (manager s)) =
    Resolved (Some a) ->
  let urn := toString (newUrn LiveVideoUrn eventId) in
  let ready := TransitionLiveVideo (StateManager.accessToken a) urn READY in
  let published := TransitionLiveVideo (StateManager.accessToken a) urn PUBLISHED in
  let s' := snd (startLiveEvent accountId eventId s) in
  String.prefix "urn:li:liveVideo:" urn = true /\
  match fetch s ready with
  | Ok _ =>
      requests s' = requests s ++ [ready; published] /\
      (fst (startLiveEvent accountId eventId s) = Resolved tt <->
       exists ident, fetch s published = Ok ident)
  | _ =>
      requests s' = requests s ++ [ready] /\
      exists e, fst (startLiveEvent accountId eventId s) = Rejected e
  end.
Proof.
  intros Hacc urn ready published s'.
  split; [apply (toString_prefixed LiveVideoUrn eventId)|].
  subst s' urn ready published. run_li.
  destruct (StateManager.getAccount StateManager.linkedin accountId (manager s))
    as [r m'] eqn:Hget.
  cbn in Hacc. subst r. li_cbn.
  li_cases; cbn; rewrite <- ?app_assoc; cbn;
    repeat split; eauto; try (intros [? ?]; done); try done.
Qed.

Lemma X23_start_live_event_protocol_witness :
  requests (snd (startLiveEvent "urn:li:person:abc" "42"
                   (memberNet remoteNoPublish))) =
    [TransitionLiveVideo "tok" "urn:li:liveVideo:42" READY;
     TransitionLiveVideo "tok" "urn:li:liveVideo:42" PUBLISHED].
Proof.
  destruct (X23_start_live_event_protocol "urn:li:person:abc" "42" member
              (memberNet remoteNoPublish)) as [_ H].
  - vm_compute. reflexivity.
  - cbn in H. destruct H as [H _]. rewrite H. vm_compute. reflexivity.
Defined.

(** X24.  When the store does not return an account for the client's
    account id (there is none, or the read fails), none of the three
    methods of the client sends a request; each rejects, with
    [LinkedIn account <id> not found] when there is no such account. *)
Theorem X24_no_account_no_request accountId s :
  (forall a, fst (StateManager.getAccount StateManager.linkedin accountId (manager s))
             <> Resolved (Some a)) ->
  (forall title description visibility,
     requests (snd (createLiveEvent accountId title description visibility s)) =
       requests s /\
     exists e, fst (createLiveEvent accountId title description visibility s) =
                 Rejected e /\
               (fst (StateManager.getAccount StateManager.linkedin accountId (manager s))
                  = Resolved None -> e = notFound accountId)) /\
  (forall eventId,
     requests (snd (startLiveEvent accountId eventId s)) = requests s /\
     exists e, fst (startLiveEvent accountId eventId s) = Rejected e /\
               (fst (StateManager.getAccount StateManager.linkedin accountId (manager s))
                  = Resolved None -> e = notFound accountId)) /\
  (forall eventId,
     requests (snd (endLiveEvent accountId eventId s)) = requests s /\
     exists e, fst (endLiveEvent accountId eventId s) = Rejected e /\
               (fst (StateManager.getAccount StateManager.linkedin accountId (manager s))
                  = Resolved None -> e = notFound accountId)).
Proof.
  intros Hno.
  repeat split; intros; run_li;
    destruct (StateManager.getAccount StateManager.linkedin accountId (manager s))
      as [[[a|]|e] m'] eqn:Hget; cbn in *;
    try (by destruct (Hno a)); try done;
    (eexists; split; [reflexivity|]; intros; by simplify_eq).
Qed.

Lemma X24_no_account_no_request_witness :
  requests (snd (endLiveEvent "nobody" "42" strangerNet)) = requests strangerNet.
Proof.
  destruct (X24_no_account_no_request "nobody" strangerNet) as (_ & _ & H).
  - intros a. vm_compute. discriminate.
  - destruct (H "42") as [Hreq _]. exact Hreq.
Defined.

Lemma orElse_nonempty a b : b <> "" -> orElse a b <> "".
Proof.
  intros Hb. unfold orElse. destruct a as [x|]; [|done].
  unfold truthy. destruct (String.eqb_spec x ""); cbn; done.
Qed.

Lemma exceptionMessage_nonempty error : exceptionMessage error <> "".
Proof. unfold exceptionMessage. by apply orElse_nonempty, orElse_nonempty. Qed.

Lemma getAccount_rejection p ident m e :
  fst (StateManager.getAccount p ident m) = Rejected e ->
  exists msg, e = JsError ("Failed to get account: " ++ msg).
Proof.
  unfold StateManager.getAccount, tryCatch, StateManager.rethrow, throw.
  match goal with
  | |- context [match ?c m with _ => _ end] => destruct (c m) as [[r|e0] m']
  end; cbn; [done|].
  intros [= <-]. by exists (errorMessage e0).
Qed.

Lemma send_rejection what r s e :
  what <> "" -> fst (send what r s) = Rejected e -> carriesMessage e.
Proof.
  unfold send. destruct (fetch s r) as [x|err|i]; cbn; intros Hw [= <-].
  - eexists. split; [done|]. by destruct what.
  - eexists. split; [done|]. apply exceptionMessage_nonempty.
Qed.

(** X25.  Whatever the store and the remote end do, a method of the client
    that rejects does so with an [Error] whose message is not empty: a
    missing account, a failed read of the store, a response that is not OK
    (even one whose body carries an empty message, or none) and a failed
    request all leave a message to record. *)
Theorem X25_client_rejections_carry_message accountId s e :
  (forall title description visibility,
     fst (createLiveEvent accountId title description visibility s) = Rejected e ->
     carriesMessage e) /\
  (forall eventId,
     fst (startLiveEvent accountId eventId s) = Rejected e -> carriesMessage e) /\
  (forall eventId,
     fst (endLiveEvent accountId eventId s) = Rejected e -> carriesMessage e).
Proof.
  assert (Hacc : forall e', fst (StateManager.getAccount StateManager.linkedin
                                   accountId (manager s)) = Rejected e' ->
                            carriesMessage e').
  { intros e' [msg ->]%getAccount_rejection. by eexists. }
  assert (Hnf : carriesMessage (notFound accountId)).
  { eexists. split; [done|]. done. }
  repeat split; intros *;
    unfold createLiveEvent, startLiveEvent, endLiveEvent, registerLiveEvent,
      transitionLiveEvent, getAccount; unfold tryCatch, bind, ret, throw;
    destruct (StateManager.getAccount StateManager.linkedin accountId (manager s))
      as [[[a|]|e'] m'] eqn:Hget; cbn [fst snd] in *;
    try (intros [= <-]; by (apply Hnf || apply Hacc)).
  - destruct (send _ _ _) as [[i|e1] s1] eqn:Hs; cbn; [done|].
    intros [= <-]. eapply send_rejection; [|by rewrite Hs]. done.
  - destruct (send _ _ _) as [[i|e1] s1] eqn:Hs; cbn.
    + destruct (send _ _ s1) as [[i2|e2] s2] eqn:Hs2; cbn; [done|].
      intros [= <-]. eapply send_rejection; [|by rewrite Hs2]. done.
    + intros [= <-]. eapply send_rejection; [|by rewrite Hs]. done.
  - destruct (send _ _ _) as [[i|e1] s1] eqn:Hs; cbn; [done|].
    intros [= <-]. eapply send_rejection; [|by rewrite Hs]. done.
Qed.

Lemma X25_client_rejections_carry_message_witness :
  carriesMessage (JsError "Not allowed").
Proof.
  destruct (X25_client_rejections_carry_message "urn:li:person:abc"
              (memberNet remoteNoPublish) (JsError "Not allowed"))
    as (_ & H & _).
  apply (H "42"). vm_compute. reflexivity.
Defined.

(** X26.  [createLiveEvent], for an account the store returns, sends one
    request: the registration of a live video with the account's token,
    the title and the description given, an owner that is a person URN,
    and the visibility PUBLIC exactly when the visibility asked for is
    [public] (anything else, [private] and [unlisted] included, becomes
    CONNECTIONS).  It resolves to the id the remote end answers. *)
Theorem X26_create_live_event_request accountId title description visibility a s :
  fst (StateManager.getAccount StateManager.linkedin accountId (manager s)) =
    Resolved (Some a) ->
  exists owner vis,
    let r := RegisterLiveVideo (StateManager.accessToken a) owner title
               description vis in
    requests (snd (createLiveEvent accountId title description visibility s)) =
      requests s ++ [r] /\
    String.prefix "urn:li:person:" owner = true /\
    (vis = PUBLIC <-> visibility = "public") /\
    (forall ident, fetch s r = Ok ident ->
       fst (createLiveEvent accountId title description visibility s) =
         Resolved ident).
Proof.
  intros Hacc.
  exists (toString (newUrn PersonUrn (StateManager.id a))),
         (if String.eqb visibility "public" then PUBLIC else CONNECTIONS).
  cbn zeta. run_li.
  destruct (StateManager.getAccount StateManager.linkedin accountId (manager s))
    as [r m'] eqn:Hget.
  cbn in Hacc. subst r. li_cbn.
  split; [|split; [apply (toString_prefixed PersonUrn (StateManager.id a))|split]].
  - by destruct (fetch s _).
  - destruct (String.eqb_spec visibility "public"); split; done.
  - intros ident ->. done.
Qed.

Lemma X26_create_live_event_request_witness :
  exists owner vis,
    requests (snd (createLiveEvent "urn:li:person:abc" "T" "D" "unlisted"
                     (memberNet remoteOk))) =
      requests (memberNet remoteOk) ++ [RegisterLiveVideo "tok" owner "T" "D" vis] /\
    (vis = PUBLIC <-> "unlisted" = "public").
Proof.
  destruct (X26_create_live_event_request "urn:li:person:abc" "T" "D" "unlisted"
              member (memberNet remoteOk)) as (owner & vis & Hreq & _ & Hvis & _).
  - vm_compute. reflexivity.
  - exists owner, vis. split; [exact Hreq | exact Hvis].
Defined.

End LinkedInFacts.

(** * Properties of the standalone controller *)

Module StandaloneFacts.
Import Relay RelayFacts RelayLifecycle.

Lemma filter_length_count p a ds :
  (length (List.filter (fun d => negb (sameIdentity p a d)) ds) =? length ds)%nat =
  (countIdentity p a ds =? 0)%nat.
Proof.
  unfold countIdentity.
  induction ds as [|x ds IH]; [done|]. cbn.
  pose proof (List.filter_length_le (fun d => negb (sameIdentity p a d)) ds) as Hle.
  destruct (sameIdentity p a x); cbn.
  - destruct (Nat.eqb_spec (length (List.filter (fun d => negb (sameIdentity p a d)) ds))
                (S (length ds))); [lia|done].
  - exact IH.
Qed.

(** X27.  The standalone [removeDestination] never rejects and calls no
    client.  It leaves the registry the controller's [removeDestination]
    leaves and keeps the session's [isActive]; it changes nothing at all
    when the identity is not registered; and when it is, the session is
    active and the platform's slot holds a stream id, the slot is reset to
    not streaming. *)
Theorem X27_standalone_remove p a w :
  let w' := snd (Standalone.removeDestination p a w) in
  fst (Standalone.removeDestination p a w) = Resolved tt /\
  destinations w' = destinations (snd (removeDestination p a w)) /\
  apiLog w' = apiLog w /\
  isActive (currentStatus w') = isActive (currentStatus w) /\
  (countIdentity p a (destinations w) = 0%nat -> w' = w) /\
  (countIdentity p a (destinations w) <> 0%nat ->
   isActive (currentStatus w) = true ->
   truthyOpt (platformStreamId p (currentStatus w)) = true ->
   getPlatform p (platforms (currentStatus w')) = Some stoppedStatus).
Proof.
  destruct (removeDestination_frame p a w) as (_ & _ & -> & _).
  unfold Standalone.removeDestination. run_async.
  rewrite filter_length_count.
  destruct (Nat.eqb_spec (countIdentity p a (destinations w)) 0) as [Hz|Hnz].
  - cbn. repeat split; try done.
    + intros _. rewrite filter_none_same by done. by destruct w.
  - destruct p; split_matches; simplify_eq; cbn in *;
      repeat split; try done; try congruence;
      (intros _ Ha Hid; rewrite Ha in *; cbn in *;
       match goal with H : bool_decide _ = false |- _ =>
         apply bool_decide_eq_false in H; unfold platformStreamId in Hid;
         cbn in Hid end;
       match goal with H : ~ is_Some ?x |- _ =>
         destruct x; [destruct H; eauto | done] end).
Qed.

(** X28.  The standalone [stopStream] never rejects, whatever the registry
    holds: afterwards the session is inactive; if one was active, neither
    platform is marked as streaming and the relay process is cleared.  The
    registry and the store are untouched, and the calls made, at most two,
    are calls that end a broadcast or a live event. *)
Theorem X28_standalone_stop_always_resolves w :
  let w' := snd (Standalone.stopStream w) in
  fst (Standalone.stopStream w) = Resolved tt /\
  isActive (currentStatus w') = false /\
  (isActive (currentStatus w) = true ->
   platformStreaming youtube (currentStatus w') = false /\
   platformStreaming linkedin (currentStatus w') = false /\
   streamProcessId w' = None) /\
  destinations w' = destinations w /\
  store w' = store w /\
  exists calls, apiLog w' = apiLog w ++ calls /\
                Forall (fun c => isEndCall c = true) calls /\
                (length calls <= 2)%nat.
Proof.
  unfold Standalone.stopStream, Standalone.stopPlatformStream,
    Standalone.stopBranch, Standalone.mockCall, platformStreaming.
  run_async.
  split_matches; simplify_eq; cbn in *;
    repeat split; try done; try congruence;
    try (destruct (isActive (currentStatus w)); done);
    rewrite <- ?app_assoc;
    (eexists; split; [symmetry; apply app_nil_r || reflexivity|];
     split; [repeat constructor|cbn; lia]).
Qed.

End StandaloneFacts.
